(** * mark: a directory-bookmarking command line tool

    A shallow embedding of [main.go]: the store [LocalMarkDB] over one
    backing file, the command handlers of [MarkCli] and the dispatcher
    [main], followed by the properties of the store and of the commands.

    Go values are modelled as follows.
    - [string] is a Go string, a sequence of bytes ([ascii] is one byte).
    - [int] is [Z].  The only arithmetic on ints is [len(x) - index] and
      [len(x) - 1], evaluated where [index >= 0] has already been
      checked, so no operation of the program can wrap around.
    - A Go result pair [(v, err)] is a Rocq pair whose second component
      is an [option error]; [None] is [nil].
    - The file system is reduced to the one file the program ever
      touches, [l.DBFile], together with an oracle that decides which of
      the coming system calls fail and how much a failing write has
      already written. *)

From Stdlib Require Import String Ascii List ZArith Lia Bool DecimalString.
From Stdlib Require Import Permutation DecimalNat.
Import ListNotations.

Local Open Scope Z_scope.
Local Open Scope list_scope.

(* ================================================================== *)
(** ** Bytes and strings *)

Module Str.

Definition LF : ascii := "010"%char.
Definition CR : ascii := "013"%char.
Definition TAB : ascii := "009"%char.
Definition SLASH : ascii := "/"%char.

Definition nl : string := String LF EmptyString.
Definition tab : string := String TAB EmptyString.

(** Go's [len] of a string or of a slice, as an [int]. *)
Definition len (s : string) : Z := Z.of_nat (String.length s).
Definition llen {A} (l : list A) : Z := Z.of_nat (List.length l).

(** [slices.Contains] on a slice of strings. *)
Fixpoint Contains (l : list string) (x : string) : bool :=
  match l with
  | [] => false
  | y :: r => String.eqb y x || Contains r x
  end.

(** [strings.Split(s, sep)] for a one-byte separator: the pieces between
    the separators; one more piece than there are separators, so never
    an empty slice.  [split_on] returns the first piece apart. *)
Fixpoint split_on (sep : ascii) (s : string) : string * list string :=
  match s with
  | EmptyString => (EmptyString, [])
  | String c t =>
      let (h, r) := split_on sep t in
      if Ascii.eqb c sep then (EmptyString, h :: r) else (String c h, r)
  end.

Definition Split (s : string) (sep : ascii) : list string :=
  let (h, r) := split_on sep s in h :: r.

(** [strings.Join(elems, sep)]. *)
Definition Join (elems : list string) (sep : string) : string :=
  String.concat sep elems.

(** Decimal rendering of a slice index, as [%v] prints it. *)
Definition itoa (n : nat) : string := NilZero.string_of_uint (Nat.to_uint n).

End Str.
Import Str.

(* ================================================================== *)
(** ** bufio.Scanner with the default split function, ScanLines *)

Module Scanner.

(** [bufio.MaxScanTokenSize]: the buffer holds a line and must still
    have room for one more byte, so a line is delivered when its raw
    length is below this bound; at a longer line [Scan] gives up. *)
Definition MaxScanTokenSize : Z := 64 * 1024.

(** The raw lines: the runs of bytes ended by LF, and the unterminated
    rest when it is not empty. *)
Fixpoint raw_lines (s : string) : list string :=
  match s with
  | EmptyString => []
  | String c t =>
      if Ascii.eqb c LF then EmptyString :: raw_lines t
      else match raw_lines t with
           | [] => [String c EmptyString]
           | l :: ls => String c l :: ls
           end
  end.

(** [dropCR]: a line loses one trailing carriage return. *)
Fixpoint dropCR (s : string) : string :=
  match s with
  | EmptyString => EmptyString
  | String c EmptyString => if Ascii.eqb c CR then EmptyString else s
  | String c t => String c (dropCR t)
  end.

Definition fits (line : string) : bool := len line <? MaxScanTokenSize.

(** [Scan] stops for good at the first line that does not fit. *)
Fixpoint take_fitting (ls : list string) : list string :=
  match ls with
  | [] => []
  | l :: r => if fits l then l :: take_fitting r else []
  end.

(** The tokens of [for scanner.Scan() { ... scanner.Text() ... }]. *)
Definition scan_lines (content : string) : list string :=
  map dropCR (take_fitting (raw_lines content)).

End Scanner.
Import Scanner.

(* ================================================================== *)
(** ** Errors *)

Inductive errno := ENOENT | EIO.

Inductive error :=
| ErrNew (msg : string)                 (* errors.New(msg) *)
| ErrNum (input : string)               (* *strconv.NumError of Atoi *)
| ErrPath (op : string) (e : errno)     (* *os.PathError on l.DBFile *)
| ErrGetwd                              (* the error of os.Getwd *)
| ErrHome.                              (* the error of os.UserHomeDir *)

Definition invalid_index : error := ErrNew "invalid index".

Definition is_invalid_index (e : option error) : bool :=
  match e with
  | Some (ErrNew m) => String.eqb m "invalid index"
  | _ => false
  end.

(* ================================================================== *)
(** ** The backing file *)

(** [file] is [None] while [l.DBFile] does not exist.  [faults] is
    consumed one entry per system call that can fail (open, truncate,
    write): [true] makes that call fail with EIO; an exhausted oracle
    means no more failures.  A failing open or truncate has no effect.
    A failing write may already have written the beginning of its data:
    [torn] is consumed one entry per failing write and gives the number
    of bytes that reached the file, always fewer than the write was
    given; an exhausted [torn] means none.  Reads of an open file and
    [Close] are taken to succeed. *)
Record FS := mkState {
  file : option string;
  faults : list bool;
  torn : list nat
}.

(** A state in which no failing write leaves anything behind. *)
Definition mkFS (f : option string) (fl : list bool) : FS := mkState f fl [].

Definition next_fault (s : FS) : bool * FS :=
  match faults s with
  | [] => (false, s)
  | b :: r => (b, mkState (file s) r (torn s))
  end.

Definition content (s : FS) : string :=
  match file s with Some c => c | None => EmptyString end.

(** [os.OpenFile(l.DBFile, ... | os.O_CREATE, l.filePerm)]: both calls
    of the program pass O_CREATE, so a missing file is created empty. *)
Definition OpenFile (s : FS) : option error * FS :=
  let (failed, s1) := next_fault s in
  if failed then (Some (ErrPath "open" EIO), s1)
  else (None, mkState (Some (content s1)) (faults s1) (torn s1)).

(** What a write of [data] that fails after [n] bytes has written: a
    write that returns an error has written less than all of it. *)
Definition torn_prefix (n : nat) (data : string) : string :=
  String.substring 0 (Nat.min n (String.length data - 1)) data.

(** [file.WriteString(data)] on a file opened with O_APPEND.  The
    program writes only to a file it has just opened, so the file
    exists here. *)
Definition WriteString (data : string) (s : FS) : option error * FS :=
  let (failed, s1) := next_fault s in
  if failed then
    match torn s1 with
    | [] => (Some (ErrPath "write" EIO), s1)
    | n :: r =>
        (Some (ErrPath "write" EIO),
         mkState (Some (content s1 ++ torn_prefix n data)%string) (faults s1) r)
    end
  else (None, mkState (Some (content s1 ++ data)%string) (faults s1) (torn s1)).

(** [os.Truncate(l.DBFile, 0)]: truncate(2) does not create the file. *)
Definition Truncate (s : FS) : option error * FS :=
  let (failed, s1) := next_fault s in
  if failed then (Some (ErrPath "truncate" EIO), s1)
  else match file s1 with
       | None => (Some (ErrPath "truncate" ENOENT), s1)
       | Some _ => (None, mkState (Some EmptyString) (faults s1) (torn s1))
       end.

(* ================================================================== *)
(** ** The store interface and LocalMarkDB *)

(** [type MarkDB interface]: every method runs on the state [S] of the
    implementation and returns it updated. *)
Class MarkDB (S : Type) := {
  db_Get : Z -> S -> (string * option error) * S;
  db_Add : string -> S -> option error * S;
  db_List : S -> (list string * option error) * S;
  db_Clear : S -> option error * S;
  db_Delete : Z -> S -> option error * S
}.

Module LocalMarkDB.

(** The result of [filepath.Join(elem...)], kept as the call: the model
    has one file and never needs the cleaned name. *)
Inductive filepath := filepath_Join (elem : list string).

(** [type LocalMarkDB struct]: the name of the backing file and the
    permissions it is created with. *)
Record t := mk { DBFile : filepath; filePerm : Z }.

Definition Clear (s : FS) : option error * FS := Truncate s.

Definition List (s : FS) : (list string * option error) * FS :=
  let (err, s1) := OpenFile s in
  match err with
  | Some e => (([], Some e), s1)
  | None => ((scan_lines (content s1), None), s1)
  end.

Definition Get (index : Z) (s : FS) : (string * option error) * FS :=
  if index <? 0 then ((EmptyString, Some invalid_index), s)
  else
    let '((paths, err), s1) := List s in
    match err with
    | Some e => ((EmptyString, Some e), s1)
    | None =>
        if (index <? 0) || (index >? llen paths - 1)
        then ((EmptyString, Some invalid_index), s1)
        else ((nth (Z.to_nat index) paths EmptyString, None), s1)
    end.

(** The loop [for _, item := range paths { _, err = file.WriteString(...) }]:
    [err] is overwritten at every turn. *)
Fixpoint write_all (paths : list string) (err : option error) (s : FS)
  : option error * FS :=
  match paths with
  | [] => (err, s)
  | item :: r =>
      let (err', s1) := WriteString (item ++ nl)%string s in
      write_all r err' s1
  end.

Definition Add (path : string) (s : FS) : option error * FS :=
  let '((writtenPaths, err), s1) := List s in
  match err with
  | Some e => (Some e, s1)
  | None =>
      let paths := [path] ++ writtenPaths in
      let (_, s2) := Clear s1 in
      let (err, s3) := OpenFile s2 in
      match err with
      | Some e => (Some e, s3)
      | None => write_all paths err s3
      end
  end.

(** The loop of [Delete]: [index] counts the entries passed so far. *)
Fixpoint delete_loop (suppliedIndex index : Z) (paths : list string) (s : FS)
  : FS :=
  match paths with
  | [] => s
  | path :: r =>
      if index =? suppliedIndex then delete_loop suppliedIndex (index + 1) r s
      else
        let (_, s1) := Add path s in
        delete_loop suppliedIndex (index + 1) r s1
  end.

Definition Delete (suppliedIndex : Z) (s : FS) : option error * FS :=
  let '((paths, err), s1) := List s in
  match err with
  | Some e => (Some e, s1)
  | None =>
      if (suppliedIndex <? 0) || (suppliedIndex >=? llen paths)
      then (Some invalid_index, s1)
      else
        let (_, s2) := Clear s1 in
        (None, delete_loop suppliedIndex 0 paths s2)
  end.

End LocalMarkDB.

#[export] Instance LocalMarkDB_MarkDB : MarkDB FS := {
  db_Get := LocalMarkDB.Get;
  db_Add := LocalMarkDB.Add;
  db_List := LocalMarkDB.List;
  db_Clear := LocalMarkDB.Clear;
  db_Delete := LocalMarkDB.Delete
}.

(* ================================================================== *)
(** ** The process: what a command sees besides the store *)

(** What is written to standard error at one time: a fixed text, an
    error value printed by [fmt.Fprintln(os.Stderr, err)], or the report
    of the Go runtime about a panic (the line [panic: ...] and the
    goroutine trace), kept as the value the panic was raised with. *)
Inductive panic_value :=
| PanicError (e : error)                  (* panic(err) *)
| IndexOutOfRange (index length : Z).     (* a slice index out of range *)

Inductive line :=
| Text (s : string)
| ErrLine (e : error)
| PanicReport (v : panic_value).

(** [store] is the state of the store behind [m.db]; [cwd] and [home]
    are what [os.Getwd] and [os.UserHomeDir] find ([None]: the call
    fails); [stdout] and [stderr] collect the output. *)
Record Proc (S : Type) := mkProc {
  store : S;
  cwd : option string;
  home : option string;
  stdout : string;
  stderr : list line
}.
Arguments mkProc {S}.
Arguments store {S}.
Arguments cwd {S}.
Arguments home {S}.
Arguments stdout {S}.
Arguments stderr {S}.

(** How a piece of a command ends: it goes on with a value, it leaves
    through [os.Exit(code)], or the Go runtime panics. *)
Inductive status (A : Type) := Done (a : A) | Exited (code : Z) | Panicked.
Arguments Done {A}.
Arguments Exited {A}.
Arguments Panicked {A}.

Definition Cmd (S A : Type) : Type := Proc S -> status A * Proc S.

Definition ret {S A} (a : A) : Cmd S A := fun p => (Done a, p).

Definition bind {S A B} (c : Cmd S A) (k : A -> Cmd S B) : Cmd S B :=
  fun p =>
    match c p with
    | (Done a, p1) => k a p1
    | (Exited code, p1) => (Exited code, p1)
    | (Panicked, p1) => (Panicked, p1)
    end.

Declare Scope cmd_scope.
Delimit Scope cmd_scope with cmd.
Notation "x <- c ;; k" := (bind c (fun x => k))
  (at level 61, c at next level, right associativity) : cmd_scope.
Notation "' pat <- c ;; k" := (bind c (fun x => match x with pat => k end))
  (at level 61, pat pattern, c at next level, right associativity) : cmd_scope.
Notation "c ;; k" := (bind c (fun _ => k))
  (at level 61, right associativity) : cmd_scope.

(** The process exit code the shell sees. *)
Definition exit_code {A} (st : status A) : Z :=
  match st with
  | Done _ => 0
  | Exited code => code
  | Panicked => 2
  end.

Section Effects.
Context {S : Type}.

Definition when (b : bool) (c : Cmd S unit) : Cmd S unit :=
  if b then c else ret tt.

(** A call of a store method. *)
Definition db {A} (op : S -> A * S) : Cmd S A :=
  fun p =>
    let (a, s1) := op (store p) in
    (Done a, mkProc s1 (cwd p) (home p) (stdout p) (stderr p)).

Definition Print (s : string) : Cmd S unit :=
  fun p =>
    (Done tt, mkProc (store p) (cwd p) (home p) (stdout p ++ s)%string (stderr p)).

Definition Println (s : string) : Cmd S unit := Print (s ++ nl)%string.

Definition Eprintln (l : line) : Cmd S unit :=
  fun p =>
    (Done tt, mkProc (store p) (cwd p) (home p) (stdout p) (stderr p ++ [l])).

Definition Exit {A} (code : Z) : Cmd S A := fun p => (Exited code, p).

(** A panic that nothing recovers: the runtime writes its report to
    standard error and the process ends with exit code 2. *)
Definition panic {A} (v : panic_value) : Cmd S A :=
  fun p =>
    (Panicked,
     mkProc (store p) (cwd p) (home p) (stdout p)
       (stderr p ++ [PanicReport v])).

Definition Getwd : Cmd S (string * option error) :=
  fun p =>
    match cwd p with
    | Some d => (Done (d, None), p)
    | None => (Done (EmptyString, Some ErrGetwd), p)
    end.

Definition UserHomeDir : Cmd S (string * option error) :=
  fun p =>
    match home p with
    | Some d => (Done (d, None), p)
    | None => (Done (EmptyString, Some ErrHome), p)
    end.

End Effects.

(* ================================================================== *)
(** ** strconv.Atoi *)

Module Strconv.

Definition is_digit (c : ascii) : bool :=
  let n := Z.of_N (N_of_ascii c) in (48 <=? n) && (n <=? 57).

Fixpoint digits (acc : Z) (s : string) : option Z :=
  match s with
  | EmptyString => Some acc
  | String c t =>
      if is_digit c then digits (10 * acc + (Z.of_N (N_of_ascii c) - 48)) t
      else None
  end.

(** An optional sign and at least one decimal digit. *)
Definition parse (s : string) : option Z :=
  match s with
  | EmptyString => None
  | String c t =>
      if Ascii.eqb c "-"%char then
        match t with EmptyString => None | _ => option_map Z.opp (digits 0 t) end
      else if Ascii.eqb c "+"%char then
        match t with EmptyString => None | _ => digits 0 t end
      else digits 0 s
  end.

Definition minInt : Z := - 2 ^ 63.
Definition maxInt : Z := 2 ^ 63 - 1.

(** [Atoi(s)]: the value, or [None] where Go returns a [*NumError]
    (bad syntax, or a value outside of [int]). *)
Definition Atoi (s : string) : option Z :=
  match parse s with
  | Some z => if (minInt <=? z) && (z <=? maxInt) then Some z else None
  | None => None
  end.

End Strconv.
Import Strconv.

(* ================================================================== *)
(** ** MarkCli: the command handlers *)

Module MarkCli.
Section Handlers.
Context {S : Type} {DB : MarkDB S}.
Local Open Scope cmd_scope.

Definition handleError (err : option error) : Cmd S unit :=
  match err with
  | Some e => Eprintln (ErrLine e) ;; Exit 1
  | None => ret tt
  end.

(** [index, err := strconv.Atoi(args[0]); ...]: the value, and the error
    the handler is given.  [args[0]] panics on an empty slice. *)
Definition Atoi_arg0 (args : list string) : Cmd S (Z * option error) :=
  match args with
  | [] => panic (IndexOutOfRange 0 0)
  | a :: _ =>
      match Atoi a with
      | Some z => ret (z, None)
      | None => ret (0, Some (ErrNum a))
      end
  end.

Definition help_text : string :=
  (nl ++
   "Marks the current location." ++ nl ++
   "If no command is specified, the current working directory is saved to the mark db." ++ nl ++
   nl ++
   "Usage:" ++ nl ++
   tab ++ "mark [command]" ++ nl ++
   nl ++
   "Available Commands:" ++ nl ++
   tab ++ "help            Displays help menu" ++ nl ++
   tab ++ "add             Adds the current working directory to mark db(Default action)" ++ nl ++
   tab ++ "back   <index>  Prints out the number of directories back based on the index provided" ++ nl ++
   tab ++ "clear           Clears out the paths in the mark db" ++ nl ++
   tab ++ "delete <index>  Deletes out a path in mark db based on the index provided" ++ nl ++
   tab ++ "get    <index>  Get the path in mark db based on the index provided" ++ nl ++
   tab ++ "list            List out the all the marked paths by index" ++ nl ++
   tab ++ "install         Prints out directions to create move and back commands in your .bashrc" ++ nl)%string.

Definition DisplayHelp (args : list string) : Cmd S unit :=
  Println help_text.

Definition Back (args : list string) : Cmd S unit :=
  '(cwd, err) <- Getwd ;;
  handleError err ;;
  when (negb (llen args =? 1))
       (handleError (Some (ErrNew "invalid number of args"))) ;;
  '(index, err) <- Atoi_arg0 args ;;
  handleError err ;;
  let arr := Split cwd SLASH in
  when (index <? 0) (handleError (Some invalid_index)) ;;
  let directoriesBack := llen arr - index in
  if directoriesBack =? 1 then Println "/"
  else
    when (directoriesBack <=? 0) (handleError (Some invalid_index)) ;;
    Println (Join (firstn (Z.to_nat directoriesBack) arr) "/").

(** The loop of [List]: one line [[index] path] per entry. *)
Fixpoint print_paths (index : nat) (paths : list string) : Cmd S unit :=
  match paths with
  | [] => ret tt
  | path :: r =>
      Print ("[" ++ itoa index ++ "] " ++ path ++ nl)%string ;;
      print_paths (Datatypes.S index) r
  end.

Definition List (args : list string) : Cmd S unit :=
  when (negb (llen args =? 0))
       (handleError (Some (ErrNew "invalid number of arguments"))) ;;
  '(paths, err) <- db db_List ;;
  handleError err ;;
  print_paths 0 paths.

(** The loop of [Add] that puts the other entries back. *)
Fixpoint readd_others (path : string) (paths : list string) : Cmd S unit :=
  match paths with
  | [] => ret tt
  | item :: r =>
      if String.eqb item path then readd_others path r
      else
        err <- db (db_Add item) ;;
        handleError err ;;
        readd_others path r
  end.

Definition Add (args : list string) : Cmd S unit :=
  when (negb (llen args =? 0))
       (handleError (Some (ErrNew "invalid number of arguments"))) ;;
  '(path, err) <- Getwd ;;
  handleError err ;;
  '(paths, err) <- db db_List ;;
  handleError err ;;
  if negb (Contains paths path) then
    err <- db (db_Add path) ;;
    match err with
    | Some _ => handleError (Some (ErrNew "invalid number of arguments"))
    | None => ret tt
    end
  else
    Println "path already exists. Moving to top." ;;
    _ <- db db_Clear ;;
    _ <- db (db_Add path) ;;
    readd_others path paths.

Definition Get (args : list string) : Cmd S unit :=
  when (llen args >? 1)
       (handleError (Some (ErrNew "invalid number of arguments"))) ;;
  index <- (if llen args =? 1 then
              '(index, err) <- Atoi_arg0 args ;;
              match err with
              | Some _ => handleError (Some (ErrNew "index is not a number"))
              | None => ret tt
              end ;;
              ret index
            else ret 0) ;;
  '(path, err) <- db (db_Get index) ;;
  handleError err ;;
  Println path.

Definition install_text : string :=
  (nl ++
   "Run the following commands to create a move function based on the index provided:" ++ nl ++
   nl ++
   "1. Add the following code to ~/.bashrc" ++ nl ++
   nl ++
   "move() {" ++ nl ++
   tab ++ "local readonly DEST=$(mark get $1)" ++ nl ++
   tab ++ "if [[ ! -z $DEST ]]; then" ++ nl ++
   tab ++ tab ++ "cd $DEST" ++ nl ++
   tab ++ "fi" ++ nl ++
   "}" ++ nl ++
   nl ++
   "back() {" ++ nl ++
   tab ++ "local readonly DEST=$(mark back $1)" ++ nl ++
   tab ++ "if [[ ! -z $DEST ]]; then" ++ nl ++
   tab ++ tab ++ "cd $DEST" ++ nl ++
   tab ++ "fi" ++ nl ++
   "}" ++ nl ++
   nl ++
   "2. Run the following command" ++ nl ++
   "source ~/.bashrc" ++ nl)%string.

Definition Install (args : list string) : Cmd S unit :=
  Print install_text.

Definition Clear (args : list string) : Cmd S unit :=
  err <- db db_Clear ;;
  handleError err.

Definition Delete (args : list string) : Cmd S unit :=
  when (negb (llen args =? 1)) (handleError (Some (ErrNew "specify index"))) ;;
  '(index, err) <- Atoi_arg0 args ;;
  handleError err ;;
  err <- db (db_Delete index) ;;
  handleError err.

End Handlers.
End MarkCli.

(* ================================================================== *)
(** ** main *)

Section Main.
Local Open Scope cmd_scope.

(** [GetLocalMarkFile] fails exactly when the home directory cannot be
    resolved. *)
Definition GetLocalMarkFile : Cmd FS (LocalMarkDB.filepath * option error) :=
  '(homeDir, err) <- UserHomeDir ;;
  match err with
  | Some e => ret (LocalMarkDB.filepath_Join [], Some e)    (* "", err *)
  | None => ret (LocalMarkDB.filepath_Join [homeDir; ".mark"%string], None)
  end.

Definition NewLocalMarkDB : Cmd FS (option LocalMarkDB.t * option error) :=
  '(dbFile, err) <- GetLocalMarkFile ;;
  match err with
  | Some e => ret (None, Some e)
  | None => ret (Some (LocalMarkDB.mk dbFile 432), None)   (* 0660 *)
  end.

(** [NewMarkCli] wraps the store and cannot fail, so
    [NewMarkCliWithLocalDB] fails exactly when [NewLocalMarkDB] does. *)
Definition NewMarkCliWithLocalDB : Cmd FS (option error) :=
  '(_, err) <- NewLocalMarkDB ;;
  ret err.

(** The map literal [commands] of [main]. *)
Definition commands : list (string * (list string -> Cmd FS unit)) :=
  [ ("add"%string, MarkCli.Add);
    ("back"%string, MarkCli.Back);
    ("clear"%string, MarkCli.Clear);
    ("delete"%string, MarkCli.Delete);
    ("get"%string, MarkCli.Get);
    ("help"%string, MarkCli.DisplayHelp);
    ("install"%string, MarkCli.Install);
    ("list"%string, MarkCli.List) ].

Fixpoint lookup {A} (m : list (string * A)) (key : string) : option A :=
  match m with
  | [] => None
  | (k, v) :: r => if String.eqb k key then Some v else lookup r key
  end.

(** [osArgs] is [os.Args], the program name first. *)
Definition main (osArgs : list string) : Cmd FS unit :=
  err <- NewMarkCliWithLocalDB ;;
  match err with
  | Some e => panic (PanicError e)
  | None =>
      let args := if llen osArgs =? 1 then osArgs ++ ["add"%string] else osArgs in
      match nth_error args 1 with
      | None => panic (IndexOutOfRange 1 (llen args))
      | Some name =>
          command <- match lookup commands name with
                     | Some command => ret command
                     | None =>
                         Eprintln (Text "invalid option. displaying help.") ;;
                         ret MarkCli.DisplayHelp
                     end ;;
          let commandArgs := if llen args >=? 2 then skipn 2 args else [] in
          command commandArgs
      end
  end.

End Main.

(* ================================================================== *)
(** ** The vocabulary of the properties *)

(** A file with nothing scheduled to fail. *)
Definition disk (f : option string) : FS := mkFS f [].

(** The file that holds exactly the given entries, one per line. *)
Fixpoint serialize (paths : list string) : string :=
  match paths with
  | [] => EmptyString
  | p :: r => (p ++ nl ++ serialize r)%string
  end.

(** The entries that survive a trip through the file: no line feed
    inside, no carriage return at the end, short enough for the scanner. *)
Fixpoint has_byte (c : ascii) (s : string) : bool :=
  match s with
  | EmptyString => false
  | String d t => Ascii.eqb d c || has_byte c t
  end.

Definition keeps_CR (p : string) : bool := String.eqb (dropCR p) p.

Definition storable (p : string) : bool :=
  negb (has_byte LF p) && keeps_CR p && fits p.

(** A process that starts with the given file, directory and home and
    has printed nothing yet. *)
Definition fresh (f : option string) (d h : string) : Proc FS :=
  mkProc (disk f) (Some d) (Some h) EmptyString [].

(** What a run leaves behind. *)
Definition listing (p : Proc FS) : list string :=
  fst (fst (LocalMarkDB.List (store p))).

(** What [List] would return now. *)
Definition entries (s : FS) : list string := scan_lines (content s).

(** The run of [Add] over a sequence of paths, with what each returned. *)
Fixpoint add_each (ps : list string) (s : FS) : list (option error) * FS :=
  match ps with
  | [] => ([], s)
  | p :: r =>
      let (err, s1) := LocalMarkDB.Add p s in
      let (errs, s2) := add_each r s1 in
      (err :: errs, s2)
  end.

Definition is_nil (e : option error) : bool :=
  match e with None => true | Some _ => false end.

(** The entries the loop of [Delete] puts back, in the order it meets
    them. *)
Fixpoint kept (suppliedIndex index : Z) (paths : list string) : list string :=
  match paths with
  | [] => []
  | p :: r =>
      if index =? suppliedIndex then kept suppliedIndex (index + 1) r
      else p :: kept suppliedIndex (index + 1) r
  end.

(** The entries the loop of the command [add] puts back. *)
Definition others (path : string) (paths : list string) : list string :=
  filter (fun item => negb (String.eqb item path)) paths.

(** A piece of a command is well behaved when it either goes on and has
    written nothing to standard error, or has left with code 1 after
    writing one error there; it never panics. *)
Definition reports {S A : Type} (c : Cmd S A) : Prop :=
  forall p : Proc S,
    match c p with
    | (Done _, p1) => stderr p1 = stderr p
    | (Exited code, p1) =>
        code = 1 /\ exists e, stderr p1 = stderr p ++ [ErrLine e]
    | (Panicked, _) => False
    end.

(** The run [r], started in [p], has reported the error [e]. *)
Definition reported {S : Type} (p : Proc S) (r : status unit * Proc S)
           (e : error) : Prop :=
  fst r = Exited 1 /\ stderr (snd r) = stderr p ++ [ErrLine e].

Definition notice : line := Text "invalid option. displaying help.".

Definition command_names : list string :=
  ["add"; "back"; "clear"; "delete"; "get"; "help"; "install"; "list"]%string.

(** The process [p] after the error [e] was reported and nothing else
    happened. *)
Definition exits_with {S : Type} (p : Proc S) (e : error)
  : status unit * Proc S :=
  (Exited 1,
   mkProc (store p) (cwd p) (home p) (stdout p) (stderr p ++ [ErrLine e])).

(** The pieces written one after the other. *)
Definition flatten (l : list string) : string :=
  fold_right append EmptyString l.

(** One line of the output of [list]: the index in brackets, then the
    path. *)
Definition numbered (ip : nat * string) : string :=
  ("[" ++ itoa (fst ip) ++ "] " ++ snd ip ++ nl)%string.

(** A piece of a command that leaves the bytes of the file as they are
    (it may still create the file, empty). *)
Definition read_only {A : Type} (c : Cmd FS A) : Prop :=
  forall p : Proc FS, content (store (snd (c p))) = content (store p).

(** The list without its element at position [i]. *)
Definition without (i : nat) (paths : list string) : list string :=
  firstn i paths ++ skipn (Datatypes.S i) paths.

(* ================================================================== *)
(** * Properties *)

Example scan_demo :
  scan_lines ("/x" ++ nl ++ nl ++ "/y" ++ String CR nl ++ "/z")%string
  = ["/x"; ""; "/y"; "/z"]%string.
Proof. reflexivity. Qed.

Example add_demo :
  snd (LocalMarkDB.Add "/y" (snd (LocalMarkDB.Add "/x" (disk None))))
  = disk (Some (serialize ["/y"; "/x"]%string)).
Proof. reflexivity. Qed.

Example Atoi_demo :
  map Atoi ["0"; "-1"; "+42"; "007"; ""; "-"; "4x"; " 4";
            "9223372036854775807"; "9223372036854775808"]%string
  = [Some 0; Some (-1); Some 42; Some 7; None; None; None; None;
     Some 9223372036854775807; None].
Proof. reflexivity. Qed.

Example back_demo :
  stdout (snd (main ["mark"; "back"; "1"]%string (fresh None "/a/b/c/d" "/root")))
  = ("/a/b/c" ++ nl)%string.
Proof. reflexivity. Qed.

(* ------------------------------------------------------------------ *)
(** ** Strings and lines *)

Section Lines.

Lemma append_assoc (a b c : string) :
  ((a ++ b) ++ c)%string = (a ++ (b ++ c))%string.
Proof. induction a as [|x a IH]; simpl; [reflexivity | now rewrite IH]. Qed.

Lemma append_empty_r (a : string) : (a ++ EmptyString)%string = a.
Proof. induction a as [|x a IH]; simpl; [reflexivity | now rewrite IH]. Qed.

Lemma raw_lines_line (p rest : string) :
  has_byte LF p = false ->
  raw_lines (p ++ String LF rest) = p :: raw_lines rest.
Proof.
  induction p as [|c p IH]; simpl; intros H.
  - reflexivity.
  - apply orb_false_iff in H as [Hc Hp].
    rewrite Hc, (IH Hp). reflexivity.
Qed.

Lemma raw_lines_no_LF (s l : string) :
  In l (raw_lines s) -> has_byte LF l = false.
Proof.
  revert l. induction s as [|c s IH]; simpl; intros l H; [contradiction|].
  destruct (Ascii.eqb c LF) eqn:Hc.
  - destruct H as [<- | H]; [reflexivity | now apply IH].
  - destruct (raw_lines s) as [|l0 ls].
    + destruct H as [<- | []]. simpl. now rewrite Hc.
    + destruct H as [<- | H].
      * simpl. rewrite Hc. apply IH. now left.
      * apply IH. now right.
Qed.

Lemma dropCR_no_LF (l : string) :
  has_byte LF l = false -> has_byte LF (dropCR l) = false.
Proof.
  induction l as [|c l IH]; simpl; intros H; [reflexivity|].
  apply orb_false_iff in H as [Hc Hl].
  destruct l as [|d l].
  - destruct (Ascii.eqb c CR); simpl; [reflexivity | now rewrite Hc].
  - remember (String d l) as t eqn:Ht. simpl. rewrite Hc. now apply IH.
Qed.

Lemma dropCR_len (l : string) : len (dropCR l) <= len l.
Proof.
  unfold len. apply inj_le.
  induction l as [|c l IH]; simpl; [lia|].
  destruct l as [|d l].
  - destruct (Ascii.eqb c CR); simpl; lia.
  - remember (String d l) as t eqn:Ht. simpl. lia.
Qed.

Lemma take_fitting_In (ls : list string) (l : string) :
  In l (take_fitting ls) -> In l ls /\ fits l = true.
Proof.
  induction ls as [|x ls IH]; simpl; [contradiction|].
  destruct (fits x) eqn:Hx; [|contradiction].
  intros [<- | H]; [now split; [left|] |].
  destruct (IH H) as [H1 H2]. split; [now right | assumption].
Qed.

Lemma forallb_rev {A} (f : A -> bool) (l : list A) :
  forallb f (rev l) = forallb f l.
Proof.
  induction l as [|a l IH]; simpl; [reflexivity|].
  rewrite forallb_app, IH. simpl. rewrite andb_true_r. apply andb_comm.
Qed.

(** Whatever the file holds, the scanner only delivers lines without a
    line feed that fit its buffer. *)
Lemma scan_lines_sound (c q : string) :
  In q (scan_lines c) -> has_byte LF q = false /\ fits q = true.
Proof.
  unfold scan_lines. intros H.
  apply in_map_iff in H as (l & <- & Hl).
  apply take_fitting_In in Hl as [Hl Hf].
  split.
  - apply dropCR_no_LF. eapply raw_lines_no_LF; eassumption.
  - unfold fits in *. apply Z.ltb_lt in Hf. apply Z.ltb_lt.
    pose proof (dropCR_len l). lia.
Qed.

(** Storable entries written one per line are read back as they are. *)
Lemma scan_serialize (ps : list string) :
  forallb storable ps = true -> scan_lines (serialize ps) = ps.
Proof.
  induction ps as [|p ps IH]; simpl; intros H; [reflexivity|].
  apply andb_true_iff in H as [Hp Hps].
  unfold storable in Hp.
  apply andb_true_iff in Hp as [Hp Hfit].
  apply andb_true_iff in Hp as [Hlf Hcr].
  apply negb_true_iff in Hlf.
  unfold scan_lines in *.
  rewrite (raw_lines_line _ _ Hlf). simpl. rewrite Hfit. simpl.
  apply String.eqb_eq in Hcr. rewrite Hcr. f_equal. now apply IH.
Qed.

(** The entries of a listing are storable as soon as none of them ends
    in a carriage return. *)
Lemma scanned_storable (c : string) :
  forallb keeps_CR (scan_lines c) = true ->
  forallb storable (scan_lines c) = true.
Proof.
  intros H. apply forallb_forall. intros q Hq.
  destruct (scan_lines_sound _ _ Hq) as [H1 H2].
  unfold storable. rewrite H1, H2.
  rewrite (proj1 (forallb_forall _ _) H q Hq). reflexivity.
Qed.

End Lines.

(* ------------------------------------------------------------------ *)
(** ** The store on a file system without failures *)

Section Store.

Lemma List_disk (f : option string) :
  LocalMarkDB.List (disk f)
  = ((entries (disk f), None), disk (Some (content (disk f)))).
Proof. reflexivity. Qed.

Lemma write_all_disk (paths : list string) (e : option error) (c : string) :
  LocalMarkDB.write_all paths e (disk (Some c))
  = (match paths with [] => e | _ => None end,
     disk (Some (c ++ serialize paths)%string)).
Proof.
  revert e c. induction paths as [|p r IH]; intros e c.
  - simpl. now rewrite append_empty_r.
  - cbn [LocalMarkDB.write_all serialize].
    change (WriteString (p ++ nl) (disk (Some c)))
      with (@None error, disk (Some (c ++ (p ++ nl))%string)).
    cbv beta iota. rewrite IH, !append_assoc. destruct r; reflexivity.
Qed.

(** Without failures [Add] always succeeds and rewrites the file with
    the new path before what [List] returned. *)
Lemma Add_disk (p : string) (f : option string) :
  LocalMarkDB.Add p (disk f)
  = (None, disk (Some (serialize (p :: entries (disk f))))).
Proof.
  unfold LocalMarkDB.Add. rewrite List_disk. cbv beta iota.
  change (LocalMarkDB.Clear (disk (Some (content (disk f)))))
    with (@None error, disk (Some EmptyString)).
  cbv beta iota.
  change (OpenFile (disk (Some EmptyString)))
    with (@None error, disk (Some EmptyString)).
  cbv beta iota. rewrite write_all_disk. reflexivity.
Qed.

Lemma entries_serialize (ps : list string) :
  forallb storable ps = true -> entries (disk (Some (serialize ps))) = ps.
Proof. apply scan_serialize. Qed.

Lemma add_each_disk (ps old : list string) :
  forallb storable ps = true -> forallb storable old = true ->
  add_each ps (disk (Some (serialize old)))
  = (map (fun _ => None) ps, disk (Some (serialize (rev ps ++ old)))).
Proof.
  revert old. induction ps as [|p r IH]; intros old Hps Hold.
  - reflexivity.
  - simpl in Hps. apply andb_true_iff in Hps as [Hp Hr].
    cbn [add_each]. rewrite Add_disk, entries_serialize by assumption.
    rewrite (IH (p :: old)); [| assumption | simpl; now rewrite Hp].
    simpl. now rewrite <- app_assoc.
Qed.

(** Without failures, [List] after [Clear] returns the empty sequence
    from every state of the file; [Clear] on an existing file succeeds
    and leaves it empty, so on an empty file it changes nothing; and
    with failures still to come, whenever [Clear] and the following
    [List] both return no error, the listing is empty. *)
Lemma Clear_then_List :
  (forall f : option string,
     fst (LocalMarkDB.List (snd (LocalMarkDB.Clear (disk f)))) = ([], None)) /\
  (forall c : string,
     LocalMarkDB.Clear (disk (Some c)) = (None, disk (Some EmptyString))) /\
  LocalMarkDB.Clear (disk (Some EmptyString)) = (None, disk (Some EmptyString)) /\
  (forall (s s1 s2 : FS) (paths : list string),
     LocalMarkDB.Clear s = (None, s1) ->
     LocalMarkDB.List s1 = ((paths, None), s2) ->
     paths = []).
Proof.
  split; [|split; [|split]].
  - intros [c|]; reflexivity.
  - reflexivity.
  - reflexivity.
  - intros s s1 s2 paths HC HL.
    assert (Hf : content s1 = EmptyString).
    { unfold LocalMarkDB.Clear, Truncate, next_fault in HC.
      destruct (faults s) as [|[|] r]; cbn [file] in HC;
        try discriminate; destruct (file s); inversion HC; reflexivity. }
    unfold LocalMarkDB.List, OpenFile, next_fault in HL.
    destruct (faults s1) as [|[|] r]; cbn [file faults content] in HL;
      inversion HL; unfold content; cbn [file];
      fold (content s1); rewrite Hf; reflexivity.
Qed.

End Store.

(* ------------------------------------------------------------------ *)
(** ** Rewriting the store entry by entry *)

Section Rewriting.

Lemma Contains_storable (paths : list string) (p : string) :
  Contains paths p = true -> forallb storable paths = true ->
  storable p = true.
Proof.
  induction paths as [|q r IH]; simpl; [discriminate|].
  intros HC HS. apply andb_true_iff in HS as [Hq Hr].
  apply orb_true_iff in HC as [HC | HC]; [| now apply IH].
  apply String.eqb_eq in HC. now subst.
Qed.

(** Every [Add] of the loop prepends, so the entries come out in the
    reverse of the order in which the loop met them. *)
Lemma delete_loop_disk (i : Z) (paths : list string) :
  forall (index : Z) (acc : list string),
    forallb storable paths = true -> forallb storable acc = true ->
    LocalMarkDB.delete_loop i index paths (disk (Some (serialize acc)))
    = disk (Some (serialize (rev (kept i index paths) ++ acc))).
Proof.
  induction paths as [|p r IH]; intros index acc HS HA.
  - reflexivity.
  - simpl in HS. apply andb_true_iff in HS as [Hp Hr].
    cbn [LocalMarkDB.delete_loop kept].
    destruct (index =? i).
    + now apply IH.
    + rewrite Add_disk, entries_serialize by assumption.
      rewrite (IH (index + 1) (p :: acc)); [| assumption | simpl; now rewrite Hp].
      simpl. now rewrite <- app_assoc.
Qed.

Lemma kept_past (i : Z) (paths : list string) :
  forall index : Z, i < index -> kept i index paths = paths.
Proof.
  induction paths as [|p r IH]; intros index Hlt; cbn [kept]; [reflexivity|].
  destruct (Z.eqb_spec index i); [lia|]. f_equal. apply IH. lia.
Qed.

Lemma kept_split (i : Z) (paths : list string) :
  forall index : Z, index <= i ->
    kept i index paths
    = firstn (Z.to_nat (i - index)) paths
      ++ skipn (Datatypes.S (Z.to_nat (i - index))) paths.
Proof.
  induction paths as [|p r IH]; intros index Hle.
  - now rewrite firstn_nil, skipn_nil.
  - cbn [kept]. destruct (Z.eqb_spec index i) as [-> | Hne].
    + rewrite Z.sub_diag. cbn [Z.to_nat firstn skipn app].
      apply kept_past. lia.
    + rewrite (IH (index + 1)) by lia.
      replace (Z.to_nat (i - index))
        with (Datatypes.S (Z.to_nat (i - (index + 1)))) by lia.
      reflexivity.
Qed.

(** What [Delete] does on a store of storable entries when nothing
    fails: the entry at the index is removed and the others are left in
    reverse order. *)
Lemma Delete_disk (i : Z) (paths : list string) :
  forallb storable paths = true ->
  0 <= i < llen paths ->
  LocalMarkDB.Delete i (disk (Some (serialize paths)))
  = (None,
     disk (Some (serialize
                   (rev (firstn (Z.to_nat i) paths
                         ++ skipn (Datatypes.S (Z.to_nat i)) paths))))).
Proof.
  intros HS Hi. unfold LocalMarkDB.Delete.
  rewrite List_disk. cbv beta iota.
  unfold entries. cbn [content file disk mkFS]. rewrite (scan_serialize _ HS).
  destruct (Z.ltb_spec i 0); [lia|].
  destruct (Z.geb_spec i (llen paths)); [lia|].
  cbn [orb].
  change (LocalMarkDB.Clear (disk (Some (serialize paths))))
    with (@None error, disk (Some (serialize []))).
  cbv beta iota.
  rewrite delete_loop_disk by (assumption || reflexivity).
  rewrite app_nil_r, kept_split by lia. now rewrite Z.sub_0_r.
Qed.

(** The loop of the command [add], likewise. *)
Lemma readd_others_disk (path : string) (paths : list string) :
  forall (acc : list string) (d h : option string) (out : string)
         (err : list line),
    forallb storable paths = true -> forallb storable acc = true ->
    MarkCli.readd_others path paths
      (mkProc (disk (Some (serialize acc))) d h out err)
    = (Done tt,
       mkProc (disk (Some (serialize (rev (others path paths) ++ acc))))
         d h out err).
Proof.
  induction paths as [|q r IH]; intros acc d h out err HS HA.
  - reflexivity.
  - simpl in HS. apply andb_true_iff in HS as [Hq Hr].
    cbn [MarkCli.readd_others others filter].
    destruct (String.eqb q path); cbn [negb].
    + now apply IH.
    + unfold bind at 1. unfold db at 1.
      cbn [store cwd home stdout stderr db_Add LocalMarkDB_MarkDB].
      rewrite Add_disk, entries_serialize by assumption.
      unfold bind at 1. cbn [MarkCli.handleError ret].
      fold (others path r).
      rewrite (IH (q :: acc)); [| assumption | simpl; now rewrite Hq].
      simpl. now rewrite <- app_assoc.
Qed.

(** What the command [add] does when the working directory is already
    stored and nothing fails: the other entries are left in reverse
    order and the directory comes last. *)
Lemma Add_existing_disk (p : string) (paths : list string)
      (h : option string) (out : string) (err : list line) :
  forallb storable paths = true ->
  Contains paths p = true ->
  MarkCli.Add [] (mkProc (disk (Some (serialize paths))) (Some p) h out err)
  = (Done tt,
     mkProc (disk (Some (serialize (rev (others p paths) ++ [p]))))
       (Some p) h
       (out ++ "path already exists. Moving to top." ++ nl)%string err).
Proof.
  intros HS HC.
  pose proof (Contains_storable _ _ HC HS) as Hp.
  unfold MarkCli.Add.
  change (llen (@nil string) =? 0) with true. cbn [negb when].
  unfold bind at 1. cbn [ret].
  unfold bind at 1. unfold Getwd at 1. cbn [cwd].
  unfold bind at 1. cbn [MarkCli.handleError ret].
  unfold bind at 1. unfold db at 1.
  cbn [store cwd home stdout stderr db_List LocalMarkDB_MarkDB].
  rewrite List_disk, (entries_serialize _ HS).
  change (content (disk (Some (serialize paths)))) with (serialize paths).
  unfold bind at 1. cbn [MarkCli.handleError ret].
  rewrite HC. cbn [negb].
  unfold bind at 1. unfold Println, Print at 1.
  cbn [store cwd home stdout stderr].
  unfold bind at 1. unfold db at 1.
  cbn [store cwd home stdout stderr db_Clear LocalMarkDB_MarkDB].
  change (LocalMarkDB.Clear (disk (Some (serialize paths))))
    with (@None error, disk (Some (serialize []))).
  cbv beta iota.
  unfold bind at 1. unfold db at 1.
  cbn [store cwd home stdout stderr db_Add LocalMarkDB_MarkDB].
  rewrite Add_disk.
  change (entries (disk (Some EmptyString))) with (@nil string).
  rewrite readd_others_disk; [| assumption | simpl; now rewrite Hp].
  reflexivity.
Qed.

End Rewriting.

(* ------------------------------------------------------------------ *)
(** ** Exit codes and standard error *)

Section Reports.
Context {S : Type}.

Lemma reports_ret {A} (a : A) : reports (@ret S A a).
Proof. intros p. reflexivity. Qed.

Lemma reports_bind {A B} (c : Cmd S A) (k : A -> Cmd S B) :
  reports c -> (forall a, reports (k a)) -> reports (bind c k).
Proof.
  intros Hc Hk p. unfold bind. specialize (Hc p).
  destruct (c p) as [[a | code |] p1]; [| assumption | assumption].
  specialize (Hk a p1).
  destruct (k a p1) as [[b | code |] p2]; [congruence | | assumption].
  destruct Hk as [H1 [e He]]. split; [assumption|].
  exists e. congruence.
Qed.

Lemma handleError_exits {B} (e : error) (k : unit -> Cmd S B) (p : Proc S) :
  bind (MarkCli.handleError (Some e)) k p
  = (Exited 1,
     mkProc (store p) (cwd p) (home p) (stdout p) (stderr p ++ [ErrLine e])).
Proof. reflexivity. Qed.

Lemma reports_fail {B} (e : error) (k : unit -> Cmd S B) :
  reports (bind (MarkCli.handleError (Some e)) k).
Proof. intros p. rewrite handleError_exits. split; [reflexivity | now exists e]. Qed.

Lemma reports_handleError (err : option error) :
  reports (@MarkCli.handleError S err).
Proof.
  intros p. destruct err as [e|]; [| reflexivity].
  split; [reflexivity | now exists e].
Qed.

Lemma reports_db {A} (op : S -> A * S) : reports (db op).
Proof. intros p. unfold db. now destruct (op (store p)). Qed.

Lemma reports_Print (s : string) : reports (@Print S s).
Proof. intros p. reflexivity. Qed.

Lemma reports_Println (s : string) : reports (@Println S s).
Proof. intros p. reflexivity. Qed.

Lemma reports_Getwd : reports (@Getwd S).
Proof. intros p. unfold Getwd. now destruct (cwd p). Qed.

Lemma reports_when (b : bool) (c : Cmd S unit) :
  reports c -> reports (when b c).
Proof. intros H. destruct b; [assumption | apply reports_ret]. Qed.

End Reports.

Ltac rep :=
  repeat first
    [ apply reports_ret | apply reports_handleError | apply reports_db
    | apply reports_Print | apply reports_Println | apply reports_Getwd
    | apply reports_fail | apply reports_when
    | apply reports_bind; [| intros ?]
    | match goal with
      | |- reports (match ?x with _ => _ end) => destruct x
      end ].

Section Lengths.
Context {A : Type}.

Lemma llen_cons (a : A) (l : list A) : llen (a :: l) = 1 + llen l.
Proof. unfold llen. cbn [List.length]. lia. Qed.

Lemma llen_nonneg (l : list A) : 0 <= llen l.
Proof. unfold llen. lia. Qed.

Lemma llen_eq0_cons (a : A) (l : list A) : (llen (a :: l) =? 0) = false.
Proof. apply Z.eqb_neq. rewrite llen_cons. pose proof (llen_nonneg l). lia. Qed.

Lemma llen_eq1_two (a b : A) (l : list A) : (llen (a :: b :: l) =? 1) = false.
Proof.
  apply Z.eqb_neq. rewrite !llen_cons. pose proof (llen_nonneg l). lia.
Qed.

Lemma llen_gt1_two (a b : A) (l : list A) : (llen (a :: b :: l) >? 1) = true.
Proof.
  rewrite Z.gtb_ltb. apply Z.ltb_lt. rewrite !llen_cons.
  pose proof (llen_nonneg l). lia.
Qed.

Lemma llen_ge2_two (a b : A) (l : list A) : (llen (a :: b :: l) >=? 2) = true.
Proof.
  rewrite Z.geb_leb. apply Z.leb_le. rewrite !llen_cons.
  pose proof (llen_nonneg l). lia.
Qed.

End Lengths.

Section HandlersReport.
Context {S : Type} {DB : MarkDB S}.

Lemma reports_DisplayHelp (args : list string) :
  reports (@MarkCli.DisplayHelp S args).
Proof. apply reports_Println. Qed.

Lemma reports_Install (args : list string) :
  reports (@MarkCli.Install S args).
Proof. apply reports_Print. Qed.

Lemma reports_Clear (args : list string) : reports (MarkCli.Clear args).
Proof. unfold MarkCli.Clear. rep. Qed.

Lemma reports_Back (args : list string) : reports (@MarkCli.Back S args).
Proof.
  unfold MarkCli.Back.
  apply reports_bind; [apply reports_Getwd | intros [d err]].
  apply reports_bind; [apply reports_handleError | intros _].
  destruct args as [|a [|b r]].
  - apply reports_fail.
  - change (llen [a] =? 1) with true. cbn [negb when MarkCli.Atoi_arg0].
    destruct (Atoi a) as [index|]; rep.
  - rewrite llen_eq1_two. apply reports_fail.
Qed.

Lemma reports_print_paths (paths : list string) :
  forall index : nat, reports (@MarkCli.print_paths S index paths).
Proof.
  induction paths as [|q r IH]; intros index; cbn [MarkCli.print_paths].
  - apply reports_ret.
  - apply reports_bind; [apply reports_Print | intros _; apply IH].
Qed.

Lemma reports_List (args : list string) : reports (MarkCli.List args).
Proof.
  unfold MarkCli.List. destruct args as [|a r].
  - change (llen (@nil string) =? 0) with true. cbn [negb when].
    rep. apply reports_print_paths.
  - rewrite llen_eq0_cons. apply reports_fail.
Qed.

Lemma reports_readd_others (path : string) (paths : list string) :
  reports (MarkCli.readd_others path paths).
Proof.
  induction paths as [|q r IH]; cbn [MarkCli.readd_others].
  - apply reports_ret.
  - destruct (String.eqb q path); [assumption|]. rep. assumption.
Qed.

Lemma reports_Add (args : list string) : reports (MarkCli.Add args).
Proof.
  unfold MarkCli.Add. destruct args as [|a r].
  - change (llen (@nil string) =? 0) with true. cbn [negb when].
    rep. apply reports_readd_others.
  - rewrite llen_eq0_cons. apply reports_fail.
Qed.

Lemma reports_Get (args : list string) : reports (MarkCli.Get args).
Proof.
  unfold MarkCli.Get. destruct args as [|a [|b r]].
  - change (llen (@nil string) >? 1) with false.
    change (llen (@nil string) =? 1) with false. rep.
  - change (llen [a] >? 1) with false. change (llen [a] =? 1) with true.
    cbn [MarkCli.Atoi_arg0]. destruct (Atoi a); rep.
  - rewrite llen_gt1_two. apply reports_fail.
Qed.

Lemma reports_Delete (args : list string) : reports (MarkCli.Delete args).
Proof.
  unfold MarkCli.Delete. destruct args as [|a [|b r]].
  - apply reports_fail.
  - change (llen [a] =? 1) with true. cbn [negb when MarkCli.Atoi_arg0].
    destruct (Atoi a); rep.
  - rewrite llen_eq1_two. apply reports_fail.
Qed.

End HandlersReport.

(* ------------------------------------------------------------------ *)
(** ** The dispatcher *)

Ltac run :=
  cbv [bind ret when db Print Println Eprintln Exit panic Getwd UserHomeDir
       negb MarkCli.handleError MarkCli.Atoi_arg0
       store cwd home stdout stderr
       db_Get db_Add db_List db_Clear db_Delete LocalMarkDB_MarkDB].

Section Dispatch.

Lemma lookup_None {A} (m : list (string * A)) (key : string) :
  ~ In key (map fst m) -> lookup m key = None.
Proof.
  induction m as [|[k v] m IH]; cbn [lookup map fst In]; intros H.
  - reflexivity.
  - destruct (String.eqb_spec k key) as [-> | Hne].
    + exfalso. apply H. now left.
    + apply IH. intros Hin. apply H. now right.
Qed.

Lemma main_dispatch (p : Proc FS) (prog name h : string) (rest : list string) :
  home p = Some h ->
  main (prog :: name :: rest) p
  = match lookup commands name with
    | Some command => command rest p
    | None => bind (Eprintln notice) (fun _ => MarkCli.DisplayHelp rest) p
    end.
Proof.
  intros Hh. destruct p as [s c h0 o e]. cbn [home] in Hh. subst h0.
  unfold main, NewMarkCliWithLocalDB, NewLocalMarkDB, GetLocalMarkFile.
  rewrite llen_eq1_two, llen_ge2_two.
  cbn [nth_error skipn].
  destruct (lookup commands name); reflexivity.
Qed.

Lemma main_default (p : Proc FS) (prog h : string) :
  home p = Some h -> main [prog] p = MarkCli.Add [] p.
Proof.
  intros Hh. destruct p as [s c h0 o e]. cbn [home] in Hh. subst h0.
  reflexivity.
Qed.

Lemma lookup_reports (name : string) (command : list string -> Cmd FS unit) :
  lookup commands name = Some command ->
  forall args, reports (command args).
Proof.
  intros H args. unfold commands in H. cbn [lookup] in H.
  repeat match type of H with
         | context [String.eqb ?k name] =>
             destruct (String.eqb k name);
             [ inversion H; subst;
               first [ apply reports_Add | apply reports_Back
                     | apply reports_Clear | apply reports_Delete
                     | apply reports_Get | apply reports_DisplayHelp
                     | apply reports_Install | apply reports_List ] |]
         end.
  discriminate.
Qed.

(** Every run of [main] with a home directory and a program name ends
    in one of three ways. *)
Lemma main_reports (p : Proc FS) (argv : list string) (h : string) :
  home p = Some h -> argv <> [] ->
  let r := main argv p in
  (fst r = Done tt /\
   (stderr (snd r) = stderr p \/ stderr (snd r) = stderr p ++ [notice]))
  \/ (exists e, reported p r e).
Proof.
  intros Hh Hne r. subst r.
  assert (Hrep : forall c : Cmd FS unit, reports c ->
            (fst (c p) = Done tt /\ stderr (snd (c p)) = stderr p)
            \/ (exists e, reported p (c p) e)).
  { intros c Hc. specialize (Hc p). unfold reported.
    destruct (c p) as [[[] | code |] p1]; cbn [fst snd].
    - left. now split.
    - right. destruct Hc as [-> [e He]]. exists e. now split.
    - contradiction. }
  destruct argv as [|prog [|name rest]]; [congruence | |].
  - rewrite (main_default p prog h Hh).
    destruct (Hrep _ (reports_Add [])) as [[H1 H2] | H]; [left | right]; auto.
  - rewrite (main_dispatch p prog name h rest Hh).
    destruct (lookup commands name) as [command|] eqn:Hl.
    + destruct (Hrep _ (lookup_reports _ _ Hl rest)) as [[H1 H2] | H];
        [left | right]; auto.
    + left. split; [reflexivity | right; reflexivity].
Qed.

End Dispatch.

(* ------------------------------------------------------------------ *)
(** ** The errors the handlers report *)

Section Failures.

Lemma main_list (p : Proc FS) (prog h : string) (rest : list string) :
  home p = Some h -> main (prog :: "list"%string :: rest) p = MarkCli.List rest p.
Proof. intros Hh. now rewrite (main_dispatch p prog _ h rest Hh). Qed.

Lemma main_add (p : Proc FS) (prog h : string) (rest : list string) :
  home p = Some h -> main (prog :: "add"%string :: rest) p = MarkCli.Add rest p.
Proof. intros Hh. now rewrite (main_dispatch p prog _ h rest Hh). Qed.

Lemma main_get (p : Proc FS) (prog h : string) (rest : list string) :
  home p = Some h -> main (prog :: "get"%string :: rest) p = MarkCli.Get rest p.
Proof. intros Hh. now rewrite (main_dispatch p prog _ h rest Hh). Qed.

Lemma main_delete (p : Proc FS) (prog h : string) (rest : list string) :
  home p = Some h ->
  main (prog :: "delete"%string :: rest) p = MarkCli.Delete rest p.
Proof. intros Hh. now rewrite (main_dispatch p prog _ h rest Hh). Qed.

Lemma main_back (p : Proc FS) (prog h : string) (rest : list string) :
  home p = Some h -> main (prog :: "back"%string :: rest) p = MarkCli.Back rest p.
Proof. intros Hh. now rewrite (main_dispatch p prog _ h rest Hh). Qed.

Lemma main_clear (p : Proc FS) (prog h : string) (rest : list string) :
  home p = Some h ->
  main (prog :: "clear"%string :: rest) p = MarkCli.Clear rest p.
Proof. intros Hh. now rewrite (main_dispatch p prog _ h rest Hh). Qed.

(** *** Wrong argument count *)

Lemma List_count (p : Proc FS) (args : list string) :
  args <> [] ->
  MarkCli.List args p = exits_with p (ErrNew "invalid number of arguments").
Proof.
  destruct args as [|a r]; [congruence | intros _].
  unfold MarkCli.List. now rewrite llen_eq0_cons.
Qed.

Lemma Add_count (p : Proc FS) (args : list string) :
  args <> [] ->
  MarkCli.Add args p = exits_with p (ErrNew "invalid number of arguments").
Proof.
  destruct args as [|a r]; [congruence | intros _].
  unfold MarkCli.Add. now rewrite llen_eq0_cons.
Qed.

Lemma Get_count (p : Proc FS) (args : list string) :
  llen args > 1 ->
  MarkCli.Get args p = exits_with p (ErrNew "invalid number of arguments").
Proof.
  intros H. unfold MarkCli.Get.
  replace (llen args >? 1) with true;
    [reflexivity | symmetry; rewrite Z.gtb_ltb; apply Z.ltb_lt; lia].
Qed.

Lemma Delete_count (p : Proc FS) (args : list string) :
  llen args <> 1 ->
  MarkCli.Delete args p = exits_with p (ErrNew "specify index").
Proof.
  intros H. unfold MarkCli.Delete.
  apply Z.eqb_neq in H. now rewrite H.
Qed.

Lemma Back_count (p : Proc FS) (args : list string) :
  cwd p <> None -> llen args <> 1 ->
  MarkCli.Back args p = exits_with p (ErrNew "invalid number of args").
Proof.
  intros Hd H. destruct p as [s [d|] h o e]; [| now cbn in Hd].
  unfold MarkCli.Back. apply Z.eqb_neq in H. rewrite H. reflexivity.
Qed.

(** *** An index that is not a number *)

Lemma Get_not_a_number (p : Proc FS) (a : string) :
  Atoi a = None ->
  MarkCli.Get [a] p = exits_with p (ErrNew "index is not a number").
Proof.
  intros Ha. unfold MarkCli.Get.
  change (llen [a] >? 1) with false. change (llen [a] =? 1) with true.
  run. now rewrite Ha.
Qed.

Lemma Delete_not_a_number (p : Proc FS) (a : string) :
  Atoi a = None -> MarkCli.Delete [a] p = exits_with p (ErrNum a).
Proof.
  intros Ha. unfold MarkCli.Delete. change (llen [a] =? 1) with true.
  run. now rewrite Ha.
Qed.

Lemma Back_not_a_number (p : Proc FS) (a : string) :
  cwd p <> None -> Atoi a = None ->
  MarkCli.Back [a] p = exits_with p (ErrNum a).
Proof.
  intros Hd Ha. destruct p as [s [d|] h o e]; [| now cbn in Hd].
  unfold MarkCli.Back. change (llen [a] =? 1) with true.
  run. now rewrite Ha.
Qed.

(** *** An index out of range *)

Lemma Get_out_of_range (p : Proc FS) (a : string) (i : Z)
      (paths : list string) (s1 : FS) :
  Atoi a = Some i ->
  LocalMarkDB.List (store p) = ((paths, None), s1) ->
  i < 0 \/ i >= llen paths ->
  reported p (MarkCli.Get [a] p) invalid_index.
Proof.
  intros Ha HL Hi. destruct p as [s c h o e]. cbn [store] in HL.
  unfold MarkCli.Get.
  change (llen [a] >? 1) with false. change (llen [a] =? 1) with true.
  run. rewrite Ha. cbv beta iota. unfold LocalMarkDB.Get.
  destruct (Z.ltb_spec i 0) as [Hneg | Hneg]; [now split|].
  rewrite HL. cbv beta iota. rewrite Z.gtb_ltb.
  destruct (Z.ltb_spec (llen paths - 1) i); [now split | lia].
Qed.

Lemma Delete_out_of_range (p : Proc FS) (a : string) (i : Z)
      (paths : list string) (s1 : FS) :
  Atoi a = Some i ->
  LocalMarkDB.List (store p) = ((paths, None), s1) ->
  i < 0 \/ i >= llen paths ->
  reported p (MarkCli.Delete [a] p) invalid_index.
Proof.
  intros Ha HL Hi. destruct p as [s c h o e]. cbn [store] in HL.
  unfold MarkCli.Delete. change (llen [a] =? 1) with true.
  run. rewrite Ha. cbv beta iota. unfold LocalMarkDB.Delete.
  rewrite HL. cbv beta iota.
  destruct (Z.ltb_spec i 0) as [Hneg | Hneg]; [now split|].
  destruct (Z.geb_spec i (llen paths)); [now split | lia].
Qed.

(** [back] with one argument that is a number. *)
Lemma Back_one_arg (p : Proc FS) (d a : string) (index : Z) :
  cwd p = Some d ->
  Atoi a = Some index ->
  let arr := Split d SLASH in
  let directoriesBack := llen arr - index in
  MarkCli.Back [a] p
  = if (index <? 0) || (directoriesBack <=? 0) then exits_with p invalid_index
    else if directoriesBack =? 1 then
      (Done tt,
       mkProc (store p) (cwd p) (home p)
         (stdout p ++ ("/" ++ nl))%string (stderr p))
    else
      (Done tt,
       mkProc (store p) (cwd p) (home p)
         (stdout p
          ++ (Join (firstn (Z.to_nat directoriesBack) arr) "/" ++ nl))%string
         (stderr p)).
Proof.
  intros Hd Ha arr directoriesBack.
  destruct p as [s c h o e]. cbn [cwd] in Hd. subst c.
  unfold MarkCli.Back, exits_with.
  change (llen [a] =? 1) with true.
  run. rewrite Ha. cbv beta iota.
  fold arr. fold directoriesBack.
  destruct (index <? 0) eqn:Hneg; cbn [orb].
  - reflexivity.
  - destruct (Z.eqb_spec directoriesBack 1) as [H1 | H1].
    + rewrite H1. reflexivity.
    + destruct (directoriesBack <=? 0) eqn:Hle; reflexivity.
Qed.

Lemma Back_out_of_range (p : Proc FS) (d a : string) (i : Z) :
  cwd p = Some d ->
  Atoi a = Some i ->
  i < 0 \/ llen (Split d SLASH) - i <= 0 ->
  MarkCli.Back [a] p = exits_with p invalid_index.
Proof.
  intros Hd Ha Hi. rewrite (Back_one_arg p d a i Hd Ha). cbv zeta.
  destruct (Z.ltb_spec i 0); [reflexivity|].
  destruct (Z.leb_spec (llen (Split d SLASH) - i) 0); [reflexivity | lia].
Qed.

(** *** Failures of the file system and of the working directory *)

Lemma List_io (p : Proc FS) (l : list string) (e : error) (s1 : FS) :
  LocalMarkDB.List (store p) = ((l, Some e), s1) ->
  reported p (MarkCli.List [] p) e.
Proof.
  intros HL. destruct p as [s c h o er]. cbn [store] in HL.
  unfold MarkCli.List. change (llen (@nil string) =? 0) with true.
  run. rewrite HL. now split.
Qed.

Lemma Get_io (p : Proc FS) (l : list string) (e : error) (s1 : FS) :
  LocalMarkDB.List (store p) = ((l, Some e), s1) ->
  reported p (MarkCli.Get [] p) e.
Proof.
  intros HL. destruct p as [s c h o er]. cbn [store] in HL.
  unfold MarkCli.Get.
  change (llen (@nil string) >? 1) with false.
  change (llen (@nil string) =? 1) with false.
  run. unfold LocalMarkDB.Get. change (0 <? 0) with false.
  cbv beta iota. rewrite HL. now split.
Qed.

Lemma Delete_io (p : Proc FS) (a : string) (i : Z) (l : list string)
      (e : error) (s1 : FS) :
  Atoi a = Some i ->
  LocalMarkDB.List (store p) = ((l, Some e), s1) ->
  reported p (MarkCli.Delete [a] p) e.
Proof.
  intros Ha HL. destruct p as [s c h o er]. cbn [store] in HL.
  unfold MarkCli.Delete. change (llen [a] =? 1) with true.
  run. rewrite Ha. cbv beta iota. unfold LocalMarkDB.Delete.
  rewrite HL. now split.
Qed.

Lemma Add_io (p : Proc FS) (l : list string) (e : error) (s1 : FS) :
  cwd p <> None ->
  LocalMarkDB.List (store p) = ((l, Some e), s1) ->
  reported p (MarkCli.Add [] p) e.
Proof.
  intros Hd HL. destruct p as [s [d|] h o er]; [| now cbn in Hd].
  cbn [store] in HL.
  unfold MarkCli.Add. change (llen (@nil string) =? 0) with true.
  run. rewrite HL. now split.
Qed.

Lemma Clear_io (p : Proc FS) (args : list string) (e : error) (s1 : FS) :
  LocalMarkDB.Clear (store p) = (Some e, s1) ->
  reported p (MarkCli.Clear args p) e.
Proof.
  intros HC. destruct p as [s c h o er]. cbn [store] in HC.
  unfold MarkCli.Clear. run. rewrite HC. now split.
Qed.

Lemma Add_no_cwd (p : Proc FS) :
  cwd p = None -> MarkCli.Add [] p = exits_with p ErrGetwd.
Proof.
  intros Hd. destruct p as [s c h o er]. cbn [cwd] in Hd. subst c.
  reflexivity.
Qed.

Lemma Back_no_cwd (p : Proc FS) (args : list string) :
  cwd p = None -> MarkCli.Back args p = exits_with p ErrGetwd.
Proof.
  intros Hd. destruct p as [s c h o er]. cbn [cwd] in Hd. subst c.
  reflexivity.
Qed.

End Failures.

(* ================================================================== *)
(** * The claims *)

(** C1, at a failing input.  The store holds [/a, /b, /c] and the
    working directory is [/a].  The command [add] announces
    "path already exists. Moving to top." and leaves the store as
    [/c, /b, /a]: the directory is last, not at index 0, and the other
    two entries have changed places. *)
Theorem C1_add_existing_goes_last :
  main ["mark"; "add"]%string
    (fresh (Some (serialize ["/a"; "/b"; "/c"]%string)) "/a" "/root")
  = (Done tt,
     mkProc (disk (Some (serialize ["/c"; "/b"; "/a"]%string)))
       (Some "/a"%string) (Some "/root"%string)
       ("path already exists. Moving to top." ++ nl)%string [])
  /\
  listing (snd (main ["mark"; "add"]%string
                  (fresh (Some (serialize ["/a"; "/b"; "/c"]%string))
                     "/a" "/root")))
  = ["/c"; "/b"; "/a"]%string.
Proof. split; reflexivity. Qed.

(** C2, at a failing input.  [Delete 0] on the store [/a, /b, /c]
    returns no error and leaves [/c, /b]: the entry at index 0 is gone
    and two entries remain, but in reverse order, not as [/b, /c]. *)
Theorem C2_Delete_reverses :
  LocalMarkDB.Delete 0 (disk (Some (serialize ["/a"; "/b"; "/c"]%string)))
  = (None, disk (Some (serialize ["/c"; "/b"]%string)))
  /\
  fst (LocalMarkDB.List
         (snd (LocalMarkDB.Delete 0
                 (disk (Some (serialize ["/a"; "/b"; "/c"]%string))))))
  = (["/c"; "/b"]%string, None).
Proof. split; reflexivity. Qed.

(** C3, as the code has it.  With working directory [d] and one
    argument that [Atoi] reads as [index], [back] splits [d] at every
    slash, takes [directoriesBack = len(arr) - index], fails with
    "invalid index" (exit code 1) when [index < 0] or
    [directoriesBack <= 0], prints [/] when [directoriesBack = 1], and
    otherwise prints the first [directoriesBack] pieces joined by
    slashes.  The pieces of [/a/b/c/d] are five, the first one empty:
    index 0 prints [/a/b/c/d], index 1 prints [/a/b/c], index 3 prints
    [/a], index 4 prints [/], index 5 and index -1 fail. *)
Theorem C3_Back :
  (forall (p : Proc FS) (d a : string) (index : Z),
     cwd p = Some d ->
     Atoi a = Some index ->
     let arr := Split d SLASH in
     let directoriesBack := llen arr - index in
     MarkCli.Back [a] p
     = if (index <? 0) || (directoriesBack <=? 0) then
         (Exited 1,
          mkProc (store p) (cwd p) (home p) (stdout p)
            (stderr p ++ [ErrLine invalid_index]))
       else if directoriesBack =? 1 then
         (Done tt,
          mkProc (store p) (cwd p) (home p)
            (stdout p ++ ("/" ++ nl))%string (stderr p))
       else
         (Done tt,
          mkProc (store p) (cwd p) (home p)
            (stdout p
             ++ (Join (firstn (Z.to_nat directoriesBack) arr) "/" ++ nl))%string
            (stderr p)))
  /\
  (let run := fun a : string =>
       main ["mark"; "back"; a]%string (fresh None "/a/b/c/d" "/root") in
   let printed := fun out : string =>
       (Done tt,
        mkProc (disk None) (Some "/a/b/c/d"%string) (Some "/root"%string)
          (out ++ nl)%string []) in
   let failed :=
       (@Exited unit 1,
        mkProc (disk None) (Some "/a/b/c/d"%string) (Some "/root"%string)
          EmptyString [ErrLine invalid_index]) in
   Split "/a/b/c/d" SLASH = [""; "a"; "b"; "c"; "d"]%string /\
   run "0"%string = printed "/a/b/c/d"%string /\
   run "1"%string = printed "/a/b/c"%string /\
   run "3"%string = printed "/a"%string /\
   run "4"%string = printed "/"%string /\
   run "5"%string = failed /\
   run "-1"%string = failed).
Proof.
  split; [| cbv zeta; repeat split; reflexivity].
  intros p d a index Hd Ha. exact (Back_one_arg p d a index Hd Ha).
Qed.

Lemma C3_Back_witness :
  MarkCli.Back ["2"%string] (fresh None "/a/b/c/d" "/root")
  = (Done tt,
     mkProc (disk None) (Some "/a/b/c/d"%string) (Some "/root"%string)
       ("/a/b" ++ nl)%string []).
Proof.
  exact (proj1 C3_Back (fresh None "/a/b/c/d" "/root")
           "/a/b/c/d"%string "2"%string 2 eq_refl eq_refl).
Defined.

(** C3 as stated fails on its own scenario: with working directory
    [/a/b/c/d], index 3 prints [/a] and not [/], and index 4 does not
    fail but prints [/] with exit code 0. *)
Lemma C3_counterexample :
  let run := fun a : string =>
      main ["mark"; "back"; a]%string (fresh None "/a/b/c/d" "/root") in
  stdout (snd (run "3"%string)) = ("/a" ++ nl)%string /\
  stdout (snd (run "3"%string)) <> ("/" ++ nl)%string /\
  fst (run "4"%string) = Done tt /\
  exit_code (fst (run "4"%string)) = 0 /\
  stderr (snd (run "4"%string)) = [].
Proof.
  cbv zeta. repeat split; try reflexivity. vm_compute. discriminate.
Qed.

(** C4, as the code has it.  On a file system without failures, for a
    path [p] that is storable (no line feed inside, no carriage return
    at the end, shorter than the scanner's buffer) and a store none of
    whose entries ends in a carriage return: [Add p] succeeds and [List]
    then returns [p] followed by the previous entries in their order;
    hence after a sequence [ps] of adds of storable paths, all of which
    succeed, [List] returns them most recent first, before the previous
    entries. *)
Theorem C4_Add_prepends (f : option string) (p : string) (ps : list string) :
  let old := fst (fst (LocalMarkDB.List (disk f))) in
  forallb keeps_CR old = true ->
  storable p = true ->
  forallb storable ps = true ->
  (fst (LocalMarkDB.Add p (disk f)) = None /\
   fst (LocalMarkDB.List (snd (LocalMarkDB.Add p (disk f)))) = (p :: old, None))
  /\
  (forallb is_nil (fst (add_each ps (disk f))) = true /\
   fst (LocalMarkDB.List (snd (add_each ps (disk f)))) = (rev ps ++ old, None)).
Proof.
  intros old Hold Hp Hps.
  change old with (entries (disk f)) in *.
  assert (Hst : forallb storable (entries (disk f)) = true)
    by (apply scanned_storable, Hold).
  split.
  - rewrite Add_disk. cbn [fst snd]. split; [reflexivity|].
    rewrite List_disk. cbn [fst]. f_equal.
    apply entries_serialize. simpl. now rewrite Hp.
  - destruct ps as [|q r].
    + split; reflexivity.
    + simpl in Hps. apply andb_true_iff in Hps as [Hq Hr].
      cbn [add_each]. rewrite Add_disk.
      rewrite (add_each_disk r (q :: entries (disk f)));
        [| assumption | simpl; now rewrite Hq].
      cbn [fst snd forallb is_nil]. split.
      * clear. induction r; simpl; auto.
      * rewrite List_disk. cbn [fst]. f_equal.
        unfold entries at 1. cbn [content file disk mkFS].
        rewrite scan_serialize.
        -- simpl. now rewrite <- app_assoc.
        -- rewrite forallb_app, forallb_rev. simpl. now rewrite Hr, Hq, Hst.
Qed.

Lemma C4_Add_prepends_witness :
  (fst (LocalMarkDB.Add "/y" (disk (Some (serialize ["/x"]%string)))) = None /\
   fst (LocalMarkDB.List
          (snd (LocalMarkDB.Add "/y" (disk (Some (serialize ["/x"]%string))))))
   = (["/y"; "/x"]%string, None))
  /\
  (forallb is_nil
     (fst (add_each ["/a"; "/b"]%string (disk (Some (serialize ["/x"]%string)))))
   = true /\
   fst (LocalMarkDB.List
          (snd (add_each ["/a"; "/b"]%string
                  (disk (Some (serialize ["/x"]%string))))))
   = (["/b"; "/a"; "/x"]%string, None)).
Proof.
  apply (C4_Add_prepends (Some (serialize ["/x"]%string)) "/y"
           ["/a"; "/b"]%string); reflexivity.
Defined.

(** C4 as stated fails for a path with a line feed in it: the file is
    split at every line feed, so that path comes back as two entries. *)
Lemma C4_counterexample :
  let p := ("/a" ++ nl ++ "b")%string in
  fst (LocalMarkDB.Add p (disk None)) = None /\
  fst (LocalMarkDB.List (snd (LocalMarkDB.Add p (disk None))))
  = (["/a"; "b"]%string, None) /\
  fst (fst (LocalMarkDB.List (snd (LocalMarkDB.Add p (disk None)))))
  <> p :: fst (fst (LocalMarkDB.List (disk None))).
Proof.
  cbv zeta. split; [reflexivity|]. split; [reflexivity|].
  vm_compute. discriminate.
Qed.

(** C5.  In a state where [List] returns [paths], whatever failures are
    still to come: [Get i] and [Delete i] fail with "invalid index"
    exactly when [i < 0] or [i >= len(paths)]; otherwise [Get i] returns
    the entry at position [i] and [Delete i] returns no error. *)
Theorem C5_index_bounds (s s1 : FS) (paths : list string) (i : Z) :
  LocalMarkDB.List s = ((paths, None), s1) ->
  (is_invalid_index (snd (fst (LocalMarkDB.Get i s))) = true
   <-> i < 0 \/ i >= llen paths) /\
  (is_invalid_index (fst (LocalMarkDB.Delete i s)) = true
   <-> i < 0 \/ i >= llen paths) /\
  (0 <= i < llen paths ->
   fst (LocalMarkDB.Get i s) = (nth (Z.to_nat i) paths EmptyString, None) /\
   fst (LocalMarkDB.Delete i s) = None).
Proof.
  intros HL. unfold LocalMarkDB.Get, LocalMarkDB.Delete. rewrite HL.
  cbv beta iota.
  destruct (Z.ltb_spec i 0) as [Hneg | Hneg]; cbn [orb].
  - repeat split; intros; try reflexivity; try lia; auto.
  - rewrite Z.gtb_ltb.
    destruct (Z.ltb_spec (llen paths - 1) i) as [Hhi | Hhi];
      destruct (Z.geb_spec i (llen paths)) as [Hge | Hge]; try lia;
      destruct (LocalMarkDB.Clear s1) as [e s2]; cbn [fst snd is_invalid_index];
      repeat split; intros; try reflexivity; try lia; try discriminate; auto.
Qed.

Lemma C5_index_bounds_witness :
  fst (LocalMarkDB.Get 1 (disk (Some (serialize ["/x"; "/y"]%string))))
  = ("/y"%string, None) /\
  fst (LocalMarkDB.Delete 1 (disk (Some (serialize ["/x"; "/y"]%string))))
  = None.
Proof.
  apply (C5_index_bounds (disk (Some (serialize ["/x"; "/y"]%string)))
           (disk (Some (serialize ["/x"; "/y"]%string)))
           ["/x"; "/y"]%string 1 eq_refl).
  unfold llen. simpl. lia.
Defined.

(** C6, as the code has it.  For a process whose home directory
    resolves:
    - a first argument that is none of the eight command names makes
      [main] write the notice to standard error and the help text to
      standard output, and return (exit code 0), touching nothing else;
    - every run of [main] either returns with nothing, or only that
      notice, on standard error, or leaves through [os.Exit(1)] with an
      error as the last line of standard error, which is what
      [handleError] does with any error it is given;
    - that is the end of a run with a wrong number of arguments, with
      an index that is not a number, with an index out of range, and
      with a failure of [List], of [Clear] or of [os.Getwd]. *)
Theorem C6_exit_codes :
  (forall (p : Proc FS) (prog name h : string) (rest : list string),
     home p = Some h ->
     ~ In name command_names ->
     main (prog :: name :: rest) p
     = (Done tt,
        mkProc (store p) (cwd p) (home p)
          (stdout p ++ (MarkCli.help_text ++ nl))%string
          (stderr p ++ [notice])) /\
     exit_code (fst (main (prog :: name :: rest) p)) = 0)
  /\
  (forall (p : Proc FS) (argv : list string) (h : string),
     home p = Some h -> argv <> [] ->
     let r := main argv p in
     (fst r = Done tt /\
      (stderr (snd r) = stderr p \/ stderr (snd r) = stderr p ++ [notice]))
     \/ (exists e, reported p r e))
  /\
  (forall (p : Proc FS) (e : error) (k : unit -> Cmd FS unit),
     bind (MarkCli.handleError (Some e)) k p = exits_with p e /\
     exit_code (fst (exits_with p e)) = 1)
  /\
  (forall (p : Proc FS) (prog h : string) (args : list string),
     home p = Some h ->
     (args <> [] ->
      main (prog :: "list"%string :: args) p
      = exits_with p (ErrNew "invalid number of arguments")) /\
     (args <> [] ->
      main (prog :: "add"%string :: args) p
      = exits_with p (ErrNew "invalid number of arguments")) /\
     (llen args > 1 ->
      main (prog :: "get"%string :: args) p
      = exits_with p (ErrNew "invalid number of arguments")) /\
     (llen args <> 1 ->
      main (prog :: "delete"%string :: args) p
      = exits_with p (ErrNew "specify index")) /\
     (llen args <> 1 -> cwd p <> None ->
      main (prog :: "back"%string :: args) p
      = exits_with p (ErrNew "invalid number of args")))
  /\
  (forall (p : Proc FS) (prog h a : string),
     home p = Some h ->
     Atoi a = None ->
     main [prog; "get"; a]%string p
     = exits_with p (ErrNew "index is not a number") /\
     main [prog; "delete"; a]%string p = exits_with p (ErrNum a) /\
     (cwd p <> None ->
      main [prog; "back"; a]%string p = exits_with p (ErrNum a)))
  /\
  (forall (p : Proc FS) (prog h a : string) (i : Z) (paths : list string)
          (s1 : FS),
     home p = Some h ->
     Atoi a = Some i ->
     LocalMarkDB.List (store p) = ((paths, None), s1) ->
     i < 0 \/ i >= llen paths ->
     reported p (main [prog; "get"; a]%string p) invalid_index /\
     reported p (main [prog; "delete"; a]%string p) invalid_index)
  /\
  (forall (p : Proc FS) (prog h a d : string) (i : Z),
     home p = Some h ->
     cwd p = Some d ->
     Atoi a = Some i ->
     i < 0 \/ llen (Split d SLASH) - i <= 0 ->
     main [prog; "back"; a]%string p = exits_with p invalid_index)
  /\
  (forall (p : Proc FS) (prog h : string) (l : list string) (e : error)
          (s1 : FS),
     home p = Some h ->
     LocalMarkDB.List (store p) = ((l, Some e), s1) ->
     reported p (main [prog; "list"]%string p) e /\
     reported p (main [prog; "get"]%string p) e /\
     (forall (a : string) (i : Z),
        Atoi a = Some i -> reported p (main [prog; "delete"; a]%string p) e) /\
     (cwd p <> None ->
      reported p (main [prog; "add"]%string p) e /\
      reported p (main [prog] p) e))
  /\
  (forall (p : Proc FS) (prog h : string) (rest : list string) (e : error)
          (s1 : FS),
     home p = Some h ->
     LocalMarkDB.Clear (store p) = (Some e, s1) ->
     reported p (main (prog :: "clear"%string :: rest) p) e)
  /\
  (forall (p : Proc FS) (prog h : string) (args : list string),
     home p = Some h ->
     cwd p = None ->
     main [prog; "add"]%string p = exits_with p ErrGetwd /\
     main (prog :: "back"%string :: args) p = exits_with p ErrGetwd).
Proof.
  repeat match goal with |- _ /\ _ => split end.
  - intros p prog name h rest Hh Hn.
    rewrite (main_dispatch p prog name h rest Hh).
    rewrite (lookup_None commands name Hn). split; reflexivity.
  - apply main_reports.
  - intros p e k. split; reflexivity.
  - intros p prog h args Hh.
    rewrite (main_list p prog h args Hh), (main_add p prog h args Hh),
      (main_get p prog h args Hh), (main_delete p prog h args Hh),
      (main_back p prog h args Hh).
    repeat split; intros.
    + now apply List_count.
    + now apply Add_count.
    + now apply Get_count.
    + now apply Delete_count.
    + now apply Back_count.
  - intros p prog h a Hh Ha.
    rewrite (main_get p prog h [a] Hh), (main_delete p prog h [a] Hh),
      (main_back p prog h [a] Hh).
    repeat split; intros.
    + now apply Get_not_a_number.
    + now apply Delete_not_a_number.
    + now apply Back_not_a_number.
  - intros p prog h a i paths s1 Hh Ha HL Hi.
    rewrite (main_get p prog h [a] Hh), (main_delete p prog h [a] Hh).
    split.
    + eapply Get_out_of_range; eassumption.
    + eapply Delete_out_of_range; eassumption.
  - intros p prog h a d i Hh Hd Ha Hi.
    rewrite (main_back p prog h [a] Hh).
    eapply Back_out_of_range; eassumption.
  - intros p prog h l e s1 Hh HL.
    rewrite (main_list p prog h [] Hh), (main_get p prog h [] Hh),
      (main_add p prog h [] Hh), (main_default p prog h Hh).
    split; [eapply List_io; eassumption|].
    split; [eapply Get_io; eassumption|].
    split.
    + intros a i Ha. rewrite (main_delete p prog h [a] Hh).
      eapply Delete_io; eassumption.
    + intros Hd. split; eapply Add_io; eassumption.
  - intros p prog h rest e s1 Hh HC.
    rewrite (main_clear p prog h rest Hh).
    eapply Clear_io; eassumption.
  - intros p prog h args Hh Hd.
    rewrite (main_add p prog h [] Hh), (main_back p prog h args Hh).
    split; [now apply Add_no_cwd | now apply Back_no_cwd].
Qed.

Lemma C6_exit_codes_witness :
  let p := fresh (Some (serialize ["/x"]%string)) "/tmp" "/root" in
  (main ["mark"; "frobnicate"; "7"]%string p
   = (Done tt,
      mkProc (disk (Some (serialize ["/x"]%string)))
        (Some "/tmp"%string) (Some "/root"%string)
        (MarkCli.help_text ++ nl)%string [notice])
   /\
   exit_code (fst (main ["mark"; "frobnicate"; "7"]%string p)) = 0) /\
  main ["mark"; "delete"]%string p = exits_with p (ErrNew "specify index") /\
  main ["mark"; "get"; "two"]%string p
  = exits_with p (ErrNew "index is not a number") /\
  reported p (main ["mark"; "get"; "1"]%string p) invalid_index /\
  reported p (main ["mark"; "delete"; "-1"]%string p) invalid_index /\
  main ["mark"; "back"; "3"]%string p = exits_with p invalid_index /\
  reported
    (mkProc (mkFS (Some (serialize ["/x"]%string)) [true])
       (Some "/tmp"%string) (Some "/root"%string) EmptyString [])
    (main ["mark"; "list"]%string
       (mkProc (mkFS (Some (serialize ["/x"]%string)) [true])
          (Some "/tmp"%string) (Some "/root"%string) EmptyString []))
    (ErrPath "open" EIO) /\
  reported (fresh None "/tmp" "/root")
    (main ["mark"; "clear"]%string (fresh None "/tmp" "/root"))
    (ErrPath "truncate" ENOENT).
Proof.
  destruct C6_exit_codes
    as (Hunknown & _ & _ & Hcount & Hnumber & Hrange & Hback & Hlist
        & Hclear & _).
  cbv zeta.
  pose (p := fresh (Some (serialize ["/x"]%string)) "/tmp" "/root").
  fold p.
  split.
  { apply (Hunknown p "mark" "frobnicate" "/root" ["7"] eq_refl)%string.
    unfold command_names. simpl. intuition discriminate. }
  split.
  { destruct (Hcount p "mark" "/root" [] eq_refl)%string
      as (_ & _ & _ & Hdelete & _).
    apply Hdelete. vm_compute. discriminate. }
  split.
  { exact (proj1 (Hnumber p "mark" "/root" "two" eq_refl eq_refl))%string. }
  split.
  { refine (proj1 (Hrange p "mark" "/root" "1" 1 ["/x"]
                      (disk (Some (serialize ["/x"])))
                      eq_refl eq_refl eq_refl _))%string.
    right. vm_compute. discriminate. }
  split.
  { refine (proj2 (Hrange p "mark" "/root" "-1" (-1) ["/x"]
                      (disk (Some (serialize ["/x"])))
                      eq_refl eq_refl eq_refl _))%string.
    left. lia. }
  split.
  { apply (Hback p "mark" "/root" "3" "/tmp" 3 eq_refl eq_refl eq_refl)%string.
    right. vm_compute. discriminate. }
  split.
  { exact (proj1 (Hlist (mkProc (mkFS (Some (serialize ["/x"])) [true])
                    (Some "/tmp") (Some "/root") EmptyString [])
             "mark" "/root" [] (ErrPath "open" EIO)
             (mkFS (Some (serialize ["/x"])) []) eq_refl eq_refl))%string. }
  exact (Hclear (fresh None "/tmp" "/root") "mark" "/root" []
           (ErrPath "truncate" ENOENT) (disk None) eq_refl eq_refl)%string.
Defined.

(** C6 as stated fails when the home directory cannot be resolved:
    [main] panics before it looks at the command.  With an unknown
    command the run then ends with exit code 2, with neither the notice
    nor the help text, and with a run-time error; a wrong number of
    arguments ends in the same way instead of exit code 1. *)
Lemma C6_counterexample :
  let p := mkProc (disk None) (Some "/"%string) None EmptyString [] in
  lookup commands "frobnicate" = None /\
  main ["mark"; "frobnicate"]%string p
  = (Panicked,
     mkProc (disk None) (Some "/"%string) None EmptyString
       [PanicReport (PanicError ErrHome)]) /\
  exit_code (fst (main ["mark"; "frobnicate"]%string p)) = 2 /\
  exit_code (fst (main ["mark"; "frobnicate"]%string p)) <> 0 /\
  exit_code (fst (main ["mark"; "list"; "extra"]%string p)) <> 1.
Proof.
  cbv zeta. repeat split; try reflexivity; vm_compute; discriminate.
Qed.

(** C7.  [get] without arguments asks the store for index 0: in a state
    where [List] returns [x] first, it prints [x] and returns.  After
    [mark] in [/x] and then [mark] in [/y] on a fresh system,
    [mark get] prints [/y]. *)
Theorem C7_get_default_index :
  (forall (p : Proc FS) (x : string) (rest : list string) (s1 : FS),
     LocalMarkDB.List (store p) = ((x :: rest, None), s1) ->
     MarkCli.Get [] p
     = (Done tt,
        mkProc s1 (cwd p) (home p) (stdout p ++ (x ++ nl))%string (stderr p)))
  /\
  (let s1 := store (snd (main ["mark"]%string (fresh None "/x" "/root"))) in
   let s2 := store (snd (main ["mark"]%string
                           (mkProc s1 (Some "/y"%string) (Some "/root"%string)
                              EmptyString []))) in
   listing (mkProc s2 (Some "/"%string) (Some "/root"%string) EmptyString [])
   = ["/y"; "/x"]%string /\
   main ["mark"; "get"]%string
     (mkProc s2 (Some "/"%string) (Some "/root"%string) EmptyString [])
   = (Done tt,
      mkProc s2 (Some "/"%string) (Some "/root"%string) ("/y" ++ nl)%string [])).
Proof.
  split; [| cbv zeta; split; reflexivity].
  intros p x rest s1 HL.
  destruct p as [s c h o e]. cbn [store] in HL.
  unfold MarkCli.Get.
  change (llen (@nil string) >? 1) with false.
  change (llen (@nil string) =? 1) with false.
  cbv [bind db ret when MarkCli.handleError db_Get LocalMarkDB_MarkDB
       cwd store home stdout stderr].
  unfold LocalMarkDB.Get.
  change (0 <? 0) with false. cbv beta iota. rewrite HL. cbv beta iota.
  assert (Hin : (0 >? llen (x :: rest) - 1) = false).
  { rewrite Z.gtb_ltb. apply Z.ltb_ge. unfold llen. simpl List.length. lia. }
  rewrite Hin. reflexivity.
Qed.

Lemma C7_get_default_index_witness :
  MarkCli.Get [] (fresh (Some (serialize ["/y"; "/x"]%string)) "/" "/root")
  = (Done tt,
     mkProc (disk (Some (serialize ["/y"; "/x"]%string)))
       (Some "/"%string) (Some "/root"%string) ("/y" ++ nl)%string []).
Proof.
  exact (proj1 C7_get_default_index
           (fresh (Some (serialize ["/y"; "/x"]%string)) "/" "/root")
           "/y"%string ["/x"%string]
           (disk (Some (serialize ["/y"; "/x"]%string))) eq_refl).
Defined.

(** C8, at a failing input.  On a fresh system the backing file does
    not exist.  The store is empty there: [List] returns the empty
    sequence and no error.  Yet [Clear] returns the error ENOENT of
    truncate instead of succeeding, and the command [clear] ends with
    exit code 1.  ([List] after that [Clear] does return the empty
    sequence.) *)
Theorem C8_Clear_fails_on_fresh_store :
  fst (LocalMarkDB.List (disk None)) = ([], None) /\
  LocalMarkDB.Clear (disk None) = (Some (ErrPath "truncate" ENOENT), disk None) /\
  fst (LocalMarkDB.List (snd (LocalMarkDB.Clear (disk None)))) = ([], None) /\
  exit_code (fst (main ["mark"; "clear"]%string (fresh None "/" "/root"))) = 1.
Proof. repeat split. Qed.

(** C9.  [Delete] on a valid index returns no error whatever fails
    afterwards: the results of its [Clear] and of every [Add] are
    dropped.  Two runs on the store [/a, /b, /c] with index 0 show it.
    When the last write of the last [Add] fails, [Delete] returns no
    error and only [/c] is left.  When the [Clear] of [Delete] fails,
    [Delete] returns no error and the store has grown to five entries,
    the deleted one among them. *)
Theorem C9_Delete_drops_errors :
  (forall (s s1 : FS) (paths : list string) (i : Z),
     LocalMarkDB.List s = ((paths, None), s1) ->
     0 <= i < llen paths ->
     fst (LocalMarkDB.Delete i s) = None) /\
  (let s := mkFS (Some (serialize ["/a"; "/b"; "/c"]%string))
              [false; false; false; false; false; false;
               false; false; false; false; true] in
   fst (LocalMarkDB.Delete 0 s) = None /\
   entries (snd (LocalMarkDB.Delete 0 s)) = ["/c"]%string) /\
  (let s := mkFS (Some (serialize ["/a"; "/b"; "/c"]%string)) [false; true] in
   fst (LocalMarkDB.Delete 0 s) = None /\
   entries (snd (LocalMarkDB.Delete 0 s))
   = ["/c"; "/b"; "/a"; "/b"; "/c"]%string).
Proof.
  split; [|split; split; reflexivity].
  intros s s1 paths i HL Hi.
  unfold LocalMarkDB.Delete. rewrite HL. cbv beta iota.
  destruct (Z.ltb_spec i 0); [lia|].
  destruct (Z.geb_spec i (llen paths)); [lia|].
  cbn [orb]. destruct (LocalMarkDB.Clear s1). reflexivity.
Qed.

Lemma C9_Delete_drops_errors_witness :
  fst (LocalMarkDB.Delete 1
         (mkFS (Some (serialize ["/a"; "/b"]%string)) [false; true; true]))
  = None.
Proof.
  apply (proj1 C9_Delete_drops_errors
           (mkFS (Some (serialize ["/a"; "/b"]%string)) [false; true; true])
           (mkFS (Some (serialize ["/a"; "/b"]%string)) [true; true])
           ["/a"; "/b"]%string 1).
  - reflexivity.
  - unfold llen. simpl. lia.
Defined.

(** C10.  On a missing file [Clear] fails, whatever the oracle says,
    and the file stays missing: without failures the error is ENOENT of
    truncate.  So the command [clear] on a fresh system writes that
    error to standard error and exits with code 1, whereas [List] and
    [Add] create the file. *)
Theorem C10_Clear_missing_file :
  (forall s : FS, file s = None ->
     exists e, fst (LocalMarkDB.Clear s) = Some e /\
               file (snd (LocalMarkDB.Clear s)) = None) /\
  LocalMarkDB.Clear (disk None) = (Some (ErrPath "truncate" ENOENT), disk None) /\
  (forall d h : string,
     main ["mark"; "clear"]%string (fresh None d h)
     = (Exited 1,
        mkProc (disk None) (Some d) (Some h) EmptyString
          [ErrLine (ErrPath "truncate" ENOENT)])) /\
  LocalMarkDB.List (disk None) = (([], None), disk (Some EmptyString)) /\
  (forall p : string,
     LocalMarkDB.Add p (disk None) = (None, disk (Some (p ++ nl)%string))).
Proof.
  split; [|split; [|split; [|split]]]; try reflexivity.
  intros s Hs. unfold LocalMarkDB.Clear, Truncate, next_fault.
    destruct (faults s) as [|[|] r]; cbn [file]; rewrite ?Hs;
      eexists; split; cbn [fst snd file]; try reflexivity; assumption.
Qed.

Lemma C10_Clear_missing_file_witness :
  exists e, fst (LocalMarkDB.Clear (mkFS None [false; true])) = Some e /\
            file (snd (LocalMarkDB.Clear (mkFS None [false; true]))) = None.
Proof.
  apply (proj1 C10_Clear_missing_file (mkFS None [false; true])). reflexivity.
Defined.

(* ================================================================== *)
(** * Further properties of the store *)

Section StoreFurther.

Lemma List_content (s : FS) : content (snd (LocalMarkDB.List s)) = content s.
Proof.
  unfold LocalMarkDB.List, OpenFile, next_fault.
  destruct (faults s) as [|[|] r]; reflexivity.
Qed.

Lemma List_ok (s s1 : FS) (paths : list string) :
  LocalMarkDB.List s = ((paths, None), s1) ->
  file s1 = Some (content s) /\ paths = scan_lines (content s).
Proof.
  unfold LocalMarkDB.List, OpenFile, next_fault.
  destruct (faults s) as [|[|] r]; cbn; intros H; inversion H; subst; auto.
Qed.

Lemma Get_content (s : FS) (i : Z) :
  content (snd (LocalMarkDB.Get i s)) = content s.
Proof.
  unfold LocalMarkDB.Get. destruct (i <? 0); [reflexivity|].
  pose proof (List_content s) as H.
  destruct (LocalMarkDB.List s) as [[paths err] s1]. cbn [snd] in H.
  destruct err; [assumption|].
  destruct (_ || _); assumption.
Qed.

Lemma substring_prefix (m : nat) (t : string) :
  String.prefix (String.substring 0 m t) t = true.
Proof.
  revert m. induction t as [|c t IH]; intros [|m]; cbn; try reflexivity.
  destruct (ascii_dec c c); [apply IH | congruence].
Qed.




Lemma firstn_forallb {A} (f : A -> bool) (n : nat) (l : list A) :
  forallb f l = true -> forallb f (firstn n l) = true.
Proof.
  revert n. induction l as [|a l IH]; intros [|n] H; simpl in *; auto.
  apply andb_true_iff in H as [Ha Hl]. now rewrite Ha, IH.
Qed.

Lemma skipn_forallb {A} (f : A -> bool) (n : nat) (l : list A) :
  forallb f l = true -> forallb f (skipn n l) = true.
Proof.
  revert n. induction l as [|a l IH]; intros [|n] H; simpl in *; auto.
  apply andb_true_iff in H as [Ha Hl]. now apply IH.
Qed.

Lemma without_storable (i : nat) (paths : list string) :
  forallb storable paths = true ->
  forallb storable (rev (without i paths)) = true.
Proof.
  intros H. unfold without.
  now rewrite forallb_rev, forallb_app, firstn_forallb, skipn_forallb.
Qed.

Lemma without_length (i : nat) (paths : list string) :
  (i < List.length paths)%nat ->
  Datatypes.S (List.length (without i paths)) = List.length paths.
Proof.
  intros H. unfold without.
  rewrite length_app, length_firstn, length_skipn. lia.
Qed.

End StoreFurther.

(** X1.  Without failures, on a store of [n] storable entries and for
    [0 <= i < n], [Delete i] returns no error and rewrites the file with
    the entries other than the one at position [i], in reverse order:
    [List] then returns exactly those [n - 1] entries, reversed. *)
Theorem X1_Delete_effect (i : Z) (paths : list string) :
  forallb storable paths = true ->
  0 <= i < llen paths ->
  let s' := snd (LocalMarkDB.Delete i (disk (Some (serialize paths)))) in
  fst (LocalMarkDB.Delete i (disk (Some (serialize paths)))) = None /\
  s' = disk (Some (serialize (rev (without (Z.to_nat i) paths)))) /\
  fst (LocalMarkDB.List s') = (rev (without (Z.to_nat i) paths), None) /\
  llen (fst (fst (LocalMarkDB.List s'))) = llen paths - 1.
Proof.
  intros HS Hi. cbv zeta. rewrite (Delete_disk i paths HS Hi).
  fold (without (Z.to_nat i) paths). cbn [fst snd].
  rewrite List_disk. cbn [fst].
  rewrite (entries_serialize _ (without_storable _ _ HS)).
  repeat split.
  unfold llen in *. rewrite length_rev.
  pose proof (without_length (Z.to_nat i) paths). lia.
Qed.

Lemma X1_Delete_effect_witness :
  fst (LocalMarkDB.Delete 1
         (disk (Some (serialize ["/a"; "/b"; "/c"; "/d"]%string)))) = None /\
  snd (LocalMarkDB.Delete 1
         (disk (Some (serialize ["/a"; "/b"; "/c"; "/d"]%string))))
  = disk (Some (serialize ["/d"; "/c"; "/a"]%string)) /\
  fst (LocalMarkDB.List
         (snd (LocalMarkDB.Delete 1
                 (disk (Some (serialize ["/a"; "/b"; "/c"; "/d"]%string))))))
  = (["/d"; "/c"; "/a"]%string, None) /\
  llen (fst (fst (LocalMarkDB.List
         (snd (LocalMarkDB.Delete 1
                 (disk (Some (serialize ["/a"; "/b"; "/c"; "/d"]%string))))))))
  = llen ["/a"; "/b"; "/c"; "/d"]%string - 1.
Proof.
  apply (X1_Delete_effect 1 ["/a"; "/b"; "/c"; "/d"]%string).
  - reflexivity.
  - unfold llen. simpl. lia.
Defined.

(** X2.  Without failures [Add p] always returns no error, whatever the
    file held, and leaves a file made of [p] and then the entries that
    [List] returned just before, every one followed by one line feed. *)
Theorem X2_Add_rewrites_file (p : string) (f : option string) :
  LocalMarkDB.Add p (disk f)
  = (None,
     disk (Some (serialize (p :: fst (fst (LocalMarkDB.List (disk f))))))).
Proof. rewrite Add_disk, List_disk. reflexivity. Qed.



(** X4.  [List] and [Get] never change the bytes of the file, whatever
    fails; [Get] with a negative index does not even touch the file
    system.  When [List] returns no error the file exists afterwards,
    and the entries are the scanned lines of its content. *)
Theorem X4_List_Get_read_only :
  (forall s : FS, content (snd (LocalMarkDB.List s)) = content s) /\
  (forall (s : FS) (i : Z), content (snd (LocalMarkDB.Get i s)) = content s) /\
  (forall (s : FS) (i : Z),
     i < 0 -> LocalMarkDB.Get i s = ((EmptyString, Some invalid_index), s)) /\
  (forall (s s1 : FS) (paths : list string),
     LocalMarkDB.List s = ((paths, None), s1) ->
     file s1 = Some (content s) /\ paths = scan_lines (content s)).
Proof.
  split; [exact List_content|]. split; [exact Get_content|]. split.
  - intros s i Hi. unfold LocalMarkDB.Get.
    destruct (Z.ltb_spec i 0); [reflexivity | lia].
  - exact List_ok.
Qed.

Lemma X4_List_Get_read_only_witness :
  LocalMarkDB.Get (-1) (mkFS None [true])
  = ((EmptyString, Some invalid_index), mkFS None [true]).
Proof.
  apply (proj1 (proj2 (proj2 X4_List_Get_read_only))). lia.
Defined.

(** X5.  A [Delete] that returns an error has not changed the bytes of
    the file, and a [Clear] that returns an error has left the file as
    it was, whatever the failures. *)
Theorem X5_failed_Delete_Clear (s : FS) (e : error) :
  (forall i : Z,
     fst (LocalMarkDB.Delete i s) = Some e ->
     content (snd (LocalMarkDB.Delete i s)) = content s) /\
  (fst (LocalMarkDB.Clear s) = Some e ->
   file (snd (LocalMarkDB.Clear s)) = file s).
Proof.
  split.
  - intros i. unfold LocalMarkDB.Delete.
    pose proof (List_content s) as H.
    destruct (LocalMarkDB.List s) as [[paths err] s1]. cbn [snd] in H.
    destruct err; [intros _; assumption|].
    destruct (_ || _); [intros _; assumption|].
    destruct (LocalMarkDB.Clear s1). cbn [fst]. discriminate.
  - unfold LocalMarkDB.Clear, Truncate, next_fault.
    destruct (faults s) as [|[|] r]; cbn [file];
      destruct (file s) eqn:Hf; cbn [fst snd file]; intros H;
      try discriminate; congruence.
Qed.

Lemma X5_failed_Delete_Clear_witness :
  content (snd (LocalMarkDB.Delete 7
                  (disk (Some (serialize ["/a"; "/b"]%string)))))
  = content (disk (Some (serialize ["/a"; "/b"]%string))).
Proof.
  apply (proj1 (X5_failed_Delete_Clear
                  (disk (Some (serialize ["/a"; "/b"]%string)))
                  invalid_index) 7).
  reflexivity.
Defined.

(** X6.  Whatever the file holds, an entry that [List] returns has no
    line feed in it and is shorter than the scanner's buffer of
    64 KiB. *)
Theorem X6_listed_entries (s s1 : FS) (paths : list string) (q : string) :
  LocalMarkDB.List s = ((paths, None), s1) ->
  In q paths ->
  has_byte LF q = false /\ len q < MaxScanTokenSize.
Proof.
  intros HL Hq. apply List_ok in HL as [_ ->].
  destruct (scan_lines_sound _ _ Hq) as [H1 H2].
  split; [assumption|]. unfold fits in H2. now apply Z.ltb_lt.
Qed.

Lemma X6_listed_entries_witness :
  has_byte LF "/y" = false /\ len "/y" < MaxScanTokenSize.
Proof.
  apply (X6_listed_entries
           (disk (Some ("/x" ++ String CR nl ++ "/y")%string))
           (disk (Some ("/x" ++ String CR nl ++ "/y")%string))
           ["/x"; "/y"]%string "/y"%string).
  - reflexivity.
  - simpl. auto.
Defined.

(* ================================================================== *)
(** * Further properties of the commands add and get *)

Section AddFurther.

Lemma Contains_In (l : list string) (x : string) :
  Contains l x = true <-> In x l.
Proof.
  induction l as [|y l IH]; simpl; [split; [discriminate | contradiction]|].
  rewrite orb_true_iff, IH, String.eqb_eq. tauto.
Qed.

Lemma others_forallb (f : string -> bool) (d : string) (l : list string) :
  forallb f l = true -> forallb f (others d l) = true.
Proof.
  induction l as [|q l IH]; simpl; [reflexivity|].
  intros H. apply andb_true_iff in H as [Hq Hl].
  destruct (String.eqb q d); simpl; [now apply IH | now rewrite Hq, IH].
Qed.

Lemma others_absent (d : string) (l : list string) :
  ~ In d l -> others d l = l.
Proof.
  induction l as [|q l IH]; simpl; [reflexivity|]. intros H.
  destruct (String.eqb_spec q d) as [-> | Hne]; [exfalso; apply H; now left|].
  simpl. f_equal. apply IH. intros Hin. apply H. now right.
Qed.

Lemma others_perm (d : string) (l : list string) :
  NoDup l -> In d l -> Permutation (d :: others d l) l.
Proof.
  induction l as [|q l IH]; intros Hnd Hin; [contradiction|].
  inversion Hnd as [|? ? Hq Hl]; subst. simpl.
  destruct (String.eqb_spec q d) as [-> | Hne]; simpl.
  - now rewrite others_absent.
  - destruct Hin as [-> | Hin]; [congruence|].
    rewrite perm_swap. constructor. now apply IH.
Qed.

Lemma scan_lines_front (d rest : string) :
  storable d = true ->
  scan_lines (d ++ String LF rest) = d :: scan_lines rest.
Proof.
  intros Hd. unfold storable in Hd.
  apply andb_true_iff in Hd as [Hd Hfit].
  apply andb_true_iff in Hd as [Hlf Hcr].
  apply negb_true_iff in Hlf. apply String.eqb_eq in Hcr.
  unfold scan_lines. rewrite (raw_lines_line _ _ Hlf).
  cbn [take_fitting]. rewrite Hfit. cbn [map]. now rewrite Hcr.
Qed.

(** The command [add] in a directory that is not stored yet. *)
Lemma Add_new_disk (f : option string) (d : string) (h : option string)
      (out : string) (err : list line) :
  Contains (entries (disk f)) d = false ->
  MarkCli.Add [] (mkProc (disk f) (Some d) h out err)
  = (Done tt,
     mkProc (disk (Some (serialize (d :: entries (disk f)))))
       (Some d) h out err).
Proof.
  intros HC. unfold MarkCli.Add.
  change (llen (@nil string) =? 0) with true.
  run. rewrite List_disk. cbv beta iota. rewrite HC. cbv beta iota.
  rewrite Add_disk. reflexivity.
Qed.

Lemma Get_in_range (s s1 : FS) (paths : list string) (i : Z) :
  LocalMarkDB.List s = ((paths, None), s1) ->
  0 <= i < llen paths ->
  LocalMarkDB.Get i s = ((nth (Z.to_nat i) paths EmptyString, None), s1).
Proof.
  intros HL Hi. unfold LocalMarkDB.Get.
  destruct (Z.ltb_spec i 0); [lia|]. rewrite HL. cbv beta iota.
  rewrite Z.gtb_ltb. destruct (Z.ltb_spec (llen paths - 1) i); [lia|].
  reflexivity.
Qed.

Lemma Get_cmd_default (p : Proc FS) (x : string) (rest : list string) (s1 : FS) :
  LocalMarkDB.List (store p) = ((x :: rest, None), s1) ->
  MarkCli.Get [] p
  = (Done tt,
     mkProc s1 (cwd p) (home p) (stdout p ++ (x ++ nl))%string (stderr p)).
Proof.
  intros HL. destruct p as [s c h o e]. cbn [store] in HL.
  unfold MarkCli.Get.
  change (llen (@nil string) >? 1) with false.
  change (llen (@nil string) =? 1) with false.
  run. rewrite (Get_in_range s s1 (x :: rest) 0 HL); [reflexivity|].
  rewrite llen_cons. pose proof (llen_nonneg rest). lia.
Qed.

Lemma Get_cmd_index (p : Proc FS) (a : string) (i : Z) (paths : list string)
      (s1 : FS) :
  Atoi a = Some i ->
  LocalMarkDB.List (store p) = ((paths, None), s1) ->
  0 <= i < llen paths ->
  MarkCli.Get [a] p
  = (Done tt,
     mkProc s1 (cwd p) (home p)
       (stdout p ++ (nth (Z.to_nat i) paths EmptyString ++ nl))%string
       (stderr p)).
Proof.
  intros Ha HL Hi. destruct p as [s c h o e]. cbn [store] in HL.
  unfold MarkCli.Get.
  change (llen [a] >? 1) with false. change (llen [a] =? 1) with true.
  run. rewrite Ha. cbv beta iota.
  rewrite (Get_in_range s s1 paths i HL Hi). reflexivity.
Qed.

End AddFurther.

(** X7.  Without failures, the command [add] in a directory [d] that
    [List] does not return stores it in front: it returns without
    printing anything, and the file holds [d] and then the old
    entries.  When moreover [d] is storable and no old entry ends in a
    carriage return, [List] then returns [d] followed by the old
    entries. *)
Theorem X7_add_new_directory (f : option string) (d h : string) :
  let old := fst (fst (LocalMarkDB.List (disk f))) in
  Contains old d = false ->
  main ["mark"; "add"]%string (fresh f d h)
  = (Done tt,
     mkProc (disk (Some (serialize (d :: old)))) (Some d) (Some h)
       EmptyString []) /\
  (storable d = true -> forallb keeps_CR old = true ->
   listing (snd (main ["mark"; "add"]%string (fresh f d h))) = d :: old).
Proof.
  intros old HC. change old with (entries (disk f)) in *.
  rewrite (main_add (fresh f d h) "mark" h [] eq_refl).
  unfold fresh. rewrite (Add_new_disk f d (Some h) _ _ HC).
  split; [reflexivity|]. intros Hd Hold.
  unfold listing. cbn [snd store]. rewrite List_disk. cbn [fst].
  apply entries_serialize. simpl. rewrite Hd.
  now apply scanned_storable.
Qed.

Lemma X7_add_new_directory_witness :
  main ["mark"; "add"]%string
    (fresh (Some (serialize ["/a"; "/b"]%string)) "/n" "/root")
  = (Done tt,
     mkProc (disk (Some (serialize ["/n"; "/a"; "/b"]%string)))
       (Some "/n"%string) (Some "/root"%string) EmptyString []) /\
  listing (snd (main ["mark"; "add"]%string
                  (fresh (Some (serialize ["/a"; "/b"]%string)) "/n" "/root")))
  = ["/n"; "/a"; "/b"]%string.
Proof.
  destruct (X7_add_new_directory (Some (serialize ["/a"; "/b"]%string))
              "/n" "/root" eq_refl) as [H1 H2].
  split; [exact H1 | apply H2; reflexivity].
Defined.

(** X8.  Without failures, on a store of storable entries that contains
    the working directory [d], the command [add] prints
    "path already exists. Moving to top." and leaves the store as the
    entries other than [d] in reverse order, followed by [d]: [d] ends
    at the last index. *)
Theorem X8_add_stored_directory (d h : string) (paths : list string) :
  forallb storable paths = true ->
  Contains paths d = true ->
  main ["mark"; "add"]%string (fresh (Some (serialize paths)) d h)
  = (Done tt,
     mkProc (disk (Some (serialize (rev (others d paths) ++ [d]))))
       (Some d) (Some h)
       ("path already exists. Moving to top." ++ nl)%string []) /\
  listing (snd (main ["mark"; "add"]%string (fresh (Some (serialize paths)) d h)))
  = rev (others d paths) ++ [d].
Proof.
  intros HS HC.
  rewrite (main_add (fresh (Some (serialize paths)) d h) "mark" h [] eq_refl).
  unfold fresh. rewrite (Add_existing_disk d paths (Some h) _ _ HS HC).
  split; [reflexivity|].
  unfold listing. cbn [snd store]. rewrite List_disk. cbn [fst].
  apply entries_serialize.
  rewrite forallb_app, forallb_rev, (others_forallb _ _ _ HS). simpl.
  now rewrite (Contains_storable _ _ HC HS).
Qed.

Lemma X8_add_stored_directory_witness :
  main ["mark"; "add"]%string
    (fresh (Some (serialize ["/a"; "/b"; "/c"; "/d"]%string)) "/b" "/root")
  = (Done tt,
     mkProc (disk (Some (serialize ["/d"; "/c"; "/a"; "/b"]%string)))
       (Some "/b"%string) (Some "/root"%string)
       ("path already exists. Moving to top." ++ nl)%string []) /\
  listing (snd (main ["mark"; "add"]%string
                  (fresh (Some (serialize ["/a"; "/b"; "/c"; "/d"]%string))
                     "/b" "/root")))
  = ["/d"; "/c"; "/a"; "/b"]%string.
Proof.
  apply (X8_add_stored_directory "/b" "/root"
           ["/a"; "/b"; "/c"; "/d"]%string); reflexivity.
Defined.

(** X9.  The command [add] keeps the store a set.  Without failures,
    on a store of storable entries without duplicates and in a storable
    directory [d], it returns, and the new listing is a rearrangement
    of the old entries together with [d] (of the old entries alone when
    [d] was among them): no entry is lost, none is doubled, and [d] is
    stored. *)
Theorem X9_add_keeps_a_set (d h : string) (old : list string) :
  forallb storable old = true ->
  storable d = true ->
  NoDup old ->
  let r := main ["mark"; "add"]%string (fresh (Some (serialize old)) d h) in
  fst r = Done tt /\
  Permutation (listing (snd r)) (if Contains old d then old else d :: old) /\
  NoDup (listing (snd r)) /\
  In d (listing (snd r)).
Proof.
  intros HS Hd Hnd r.
  assert (Hperm : fst r = Done tt /\
            Permutation (listing (snd r))
              (if Contains old d then old else d :: old)).
  { subst r. destruct (Contains old d) eqn:HC.
    - pose proof (Add_existing_disk d old (Some h) EmptyString [] HS HC) as HA.
      rewrite (main_add (fresh (Some (serialize old)) d h) "mark" h [] eq_refl).
      unfold fresh. rewrite HA. split; [reflexivity|].
      unfold listing. cbn [snd store]. rewrite List_disk. cbn [fst].
      rewrite entries_serialize.
      + rewrite <- (others_perm d old Hnd (proj1 (Contains_In _ _) HC)) at 2.
        rewrite <- Permutation_rev. symmetry. apply Permutation_cons_append.
      + rewrite forallb_app, forallb_rev, (others_forallb _ _ _ HS). simpl.
        now rewrite Hd.
    - rewrite (main_add (fresh (Some (serialize old)) d h) "mark" h [] eq_refl).
      unfold fresh.
      assert (HE : entries (disk (Some (serialize old))) = old)
        by now apply entries_serialize.
      rewrite Add_new_disk by now rewrite HE.
      rewrite HE. split; [reflexivity|].
      unfold listing. cbn [snd store]. rewrite List_disk. cbn [fst].
      rewrite entries_serialize; [reflexivity|]. simpl. now rewrite Hd. }
  destruct Hperm as [Hdone Hperm]. repeat split; try assumption.
  - eapply Permutation_NoDup; [symmetry; exact Hperm|].
    destruct (Contains old d) eqn:HC; [assumption|].
    constructor; [| assumption].
    intros Hin. apply Contains_In in Hin. congruence.
  - eapply Permutation_in; [symmetry; exact Hperm|].
    destruct (Contains old d) eqn:HC; [now apply Contains_In | now left].
Qed.

Lemma X9_add_keeps_a_set_witness :
  let r := main ["mark"; "add"]%string
             (fresh (Some (serialize ["/a"; "/b"; "/c"]%string)) "/b" "/root") in
  fst r = Done tt /\
  Permutation (listing (snd r))
    (if Contains ["/a"; "/b"; "/c"]%string "/b"
     then ["/a"; "/b"; "/c"]%string else ["/b"; "/a"; "/b"; "/c"]%string) /\
  NoDup (listing (snd r)) /\
  In "/b"%string (listing (snd r)).
Proof.
  apply (X9_add_keeps_a_set "/b" "/root" ["/a"; "/b"; "/c"]%string).
  - reflexivity.
  - reflexivity.
  - repeat constructor; simpl; intuition discriminate.
Defined.

(** X10.  Mark, then get.  Without failures, after [mark] in a storable
    directory [d] that [List] did not return, [mark get], run from any
    directory, prints [d], whatever else the file held. *)
Theorem X10_mark_then_get (f : option string) (d h : string) :
  storable d = true ->
  Contains (fst (fst (LocalMarkDB.List (disk f)))) d = false ->
  let r := main ["mark"]%string (fresh f d h) in
  fst r = Done tt /\
  forall d' : string,
    main ["mark"; "get"]%string
      (mkProc (store (snd r)) (Some d') (Some h) EmptyString [])
    = (Done tt,
       mkProc (store (snd r)) (Some d') (Some h) (d ++ nl)%string []).
Proof.
  intros Hd HC r. subst r.
  change (fst (fst (LocalMarkDB.List (disk f)))) with (entries (disk f)) in HC.
  rewrite (main_default (fresh f d h) "mark" h eq_refl).
  unfold fresh. rewrite (Add_new_disk f d (Some h) _ _ HC).
  cbn [fst snd store]. split; [reflexivity|]. intros d'.
  rewrite (main_get _ "mark" h []) by reflexivity.
  rewrite (Get_cmd_default _ d (scan_lines (serialize (entries (disk f))))
             (disk (Some (serialize (d :: entries (disk f)))))).
  - reflexivity.
  - cbn [store]. rewrite List_disk. unfold entries at 1.
    cbn [content file disk mkFS serialize].
    change (d ++ nl ++ serialize (entries (disk f)))%string
      with (d ++ String LF (serialize (entries (disk f))))%string.
    now rewrite (scan_lines_front _ _ Hd).
Qed.

Lemma X10_mark_then_get_witness :
  let r := main ["mark"]%string
             (fresh (Some ("/a" ++ String CR nl ++ "/b")%string) "/n" "/root") in
  fst r = Done tt /\
  forall d' : string,
    main ["mark"; "get"]%string
      (mkProc (store (snd r)) (Some d') (Some "/root"%string) EmptyString [])
    = (Done tt,
       mkProc (store (snd r)) (Some d') (Some "/root"%string)
         ("/n" ++ nl)%string []).
Proof.
  apply (X10_mark_then_get (Some ("/a" ++ String CR nl ++ "/b")%string)
           "/n" "/root"); reflexivity.
Defined.


(* ================================================================== *)
(** * Further properties of the commands list, get, back and of main *)

Section Decimal.

Lemma digits_uint (d : Decimal.uint) :
  forall acc : nat,
    digits (Z.of_nat acc) (NilEmpty.string_of_uint d)
    = Some (Z.of_nat (Nat.of_uint_acc d acc)).
Proof.
  induction d; intros acc;
    cbn [NilEmpty.string_of_uint Nat.of_uint_acc]; [reflexivity | ..];
    cbn [digits];
    match goal with
    | |- context [is_digit ?c] => change (is_digit c) with true
    end;
    cbv beta iota;
    match goal with
    | |- digits ?z _ = Some (Z.of_nat (Nat.of_uint_acc _ ?n)) =>
        replace z with (Z.of_nat n)
          by (rewrite ?Nat.tail_mul_spec; cbn [N_of_ascii N_of_digits];
              vm_compute (Z.of_N _); lia)
    end;
    apply IHd.
Qed.

(** The index that [list] prints is a number for [get], [delete] and
    [back]. *)
Lemma Atoi_itoa (n : nat) :
  Z.of_nat n <= maxInt -> Atoi (itoa n) = Some (Z.of_nat n).
Proof.
  intros Hn. unfold Atoi, itoa.
  assert (Hp : parse (NilZero.string_of_uint (Nat.to_uint n))
               = Some (Z.of_nat n)).
  { rewrite <- (DecimalNat.Unsigned.of_to n) at 2.
    unfold Nat.of_uint. generalize (Nat.to_uint n). intros d.
    pose proof (digits_uint d 0) as H. change (Z.of_nat 0) with 0 in H.
    destruct d; try exact H; reflexivity. }
  rewrite Hp.
  replace ((minInt <=? Z.of_nat n) && (Z.of_nat n <=? maxInt)) with true;
    [reflexivity|].
  symmetry. apply andb_true_iff. split; apply Z.leb_le; [|assumption].
  unfold minInt. lia.
Qed.

End Decimal.

Section ListCommand.

Lemma print_paths_out (paths : list string) :
  forall (k : nat) (p : Proc FS),
    MarkCli.print_paths k paths p
    = (Done tt,
       mkProc (store p) (cwd p) (home p)
         (stdout p
          ++ flatten (map numbered (combine (seq k (List.length paths)) paths)))%string
         (stderr p)).
Proof.
  induction paths as [|q r IH]; intros k [s c h o e].
  - cbn. now rewrite append_empty_r.
  - cbn [MarkCli.print_paths]. unfold bind at 1. unfold Print at 1.
    rewrite IH. cbn [store cwd home stdout stderr].
    cbn [List.length seq combine map flatten fold_right].
    unfold numbered at 2. cbn [fst snd].
    now rewrite append_assoc.
Qed.

End ListCommand.

(** X11.  In a state where [List] returns [paths], the command [list]
    prints one line per entry and nothing else, in the order of the
    store: the position of the entry counted from 0, in brackets, a
    space and the entry; nothing goes to standard error. *)
Theorem X11_list_output (p : Proc FS) (paths : list string) (s1 : FS) :
  LocalMarkDB.List (store p) = ((paths, None), s1) ->
  MarkCli.List [] p
  = (Done tt,
     mkProc s1 (cwd p) (home p)
       (stdout p
        ++ flatten (map numbered (combine (seq 0 (List.length paths)) paths)))%string
       (stderr p)).
Proof.
  intros HL. destruct p as [s c h o e]. cbn [store] in HL.
  unfold MarkCli.List. change (llen (@nil string) =? 0) with true.
  run. rewrite HL. cbv beta iota.
  now rewrite print_paths_out.
Qed.

Lemma X11_list_output_witness :
  MarkCli.List [] (fresh (Some (serialize ["/y"; "/x"]%string)) "/" "/root")
  = (Done tt,
     mkProc (disk (Some (serialize ["/y"; "/x"]%string)))
       (Some "/"%string) (Some "/root"%string)
       ("[0] /y" ++ nl ++ "[1] /x" ++ nl)%string []).
Proof.
  exact (X11_list_output
           (fresh (Some (serialize ["/y"; "/x"]%string)) "/" "/root")
           ["/y"; "/x"]%string
           (disk (Some (serialize ["/y"; "/x"]%string))) eq_refl).
Defined.

(** X12.  The numbers of [list] are the indexes of [get].  In a state
    where [List] returns [paths], [get] with the decimal numeral of a
    position [i < len(paths)], as [list] prints it, prints the entry at
    that position. *)
Theorem X12_get_by_listed_index (p : Proc FS) (paths : list string) (s1 : FS)
        (i : nat) :
  LocalMarkDB.List (store p) = ((paths, None), s1) ->
  (i < List.length paths)%nat ->
  Z.of_nat i <= maxInt ->
  MarkCli.Get [itoa i] p
  = (Done tt,
     mkProc s1 (cwd p) (home p)
       (stdout p ++ (nth i paths EmptyString ++ nl))%string (stderr p)).
Proof.
  intros HL Hi Hmax.
  rewrite (Get_cmd_index p (itoa i) (Z.of_nat i) paths s1
             (Atoi_itoa i Hmax) HL).
  - now rewrite Nat2Z.id.
  - unfold llen. lia.
Qed.

Lemma X12_get_by_listed_index_witness :
  MarkCli.Get ["2"%string]
    (fresh (Some (serialize ["/a"; "/b"; "/c"]%string)) "/" "/root")
  = (Done tt,
     mkProc (disk (Some (serialize ["/a"; "/b"; "/c"]%string)))
       (Some "/"%string) (Some "/root"%string) ("/c" ++ nl)%string []).
Proof.
  apply (X12_get_by_listed_index
           (fresh (Some (serialize ["/a"; "/b"; "/c"]%string)) "/" "/root")
           ["/a"; "/b"; "/c"]%string
           (disk (Some (serialize ["/a"; "/b"; "/c"]%string))) 2).
  - reflexivity.
  - simpl. lia.
  - vm_compute. discriminate.
Defined.

Section BackFurther.

Lemma concat_cons_char (sep : string) (c : ascii) (h : string)
      (l : list string) :
  String.concat sep (String c h :: l) = String c (String.concat sep (h :: l)).
Proof. destruct l; reflexivity. Qed.

Lemma Join_Split (s : string) : Join (Split s SLASH) "/" = s.
Proof.
  unfold Join, Split.
  induction s as [|c t IH]; [reflexivity|].
  cbn [split_on]. destruct (split_on SLASH t) as [h r].
  destruct (Ascii.eqb_spec c SLASH) as [-> | Hne].
  - change (String.concat "/" (EmptyString :: h :: r))
      with (String SLASH (String.concat "/" (h :: r))).
    now rewrite IH.
  - now rewrite concat_cons_char, IH.
Qed.

Lemma Split_length (s : string) :
  llen (Split s SLASH) = 1 <-> has_byte SLASH s = false.
Proof.
  unfold Split.
  induction s as [|c t IH]; [split; reflexivity|].
  cbn [split_on has_byte]. destruct (split_on SLASH t) as [h r].
  destruct (Ascii.eqb c SLASH); cbn [orb].
  - rewrite !llen_cons. pose proof (llen_nonneg r). split; [lia | discriminate].
  - exact IH.
Qed.

(** The first pieces of a path, joined again, are a prefix of it. *)
Lemma Join_firstn_prefix (s : string) :
  forall k : nat,
    String.prefix (Join (firstn (Datatypes.S k) (Split s SLASH)) "/") s = true.
Proof.
  unfold Join, Split.
  induction s as [|c t IH]; intros k.
  - cbn [split_on firstn]. now rewrite firstn_nil.
  - cbn [split_on]. destruct (split_on SLASH t) as [h r].
    destruct (Ascii.eqb_spec c SLASH) as [-> | Hne].
    + destruct k as [|k]; [reflexivity|].
      specialize (IH k). cbn [firstn] in IH |- *.
      change (String.concat "/" (EmptyString :: h :: firstn k r))
        with (String SLASH (String.concat "/" (h :: firstn k r))).
      cbn [String.prefix].
      destruct (ascii_dec SLASH SLASH); [exact IH | congruence].
    + specialize (IH k). cbn [firstn] in IH |- *.
      rewrite concat_cons_char. cbn [String.prefix].
      destruct (ascii_dec c c); [exact IH | congruence].
Qed.

End BackFurther.

(** X13.  [back 0] changes nothing when the working directory [d] has a
    slash in it: it prints [d] itself.  For a [d] without any slash it
    prints [/]. *)
Theorem X13_back_zero (p : Proc FS) (d : string) :
  cwd p = Some d ->
  MarkCli.Back ["0"%string] p
  = (Done tt,
     mkProc (store p) (cwd p) (home p)
       (stdout p ++ ((if has_byte SLASH d then d else "/") ++ nl))%string
       (stderr p)).
Proof.
  intros Hd. rewrite (Back_one_arg p d "0" 0 Hd eq_refl). cbv zeta.
  rewrite Z.sub_0_r.
  assert (Hpos : 1 <= llen (Split d SLASH)).
  { unfold Split. destruct (split_on SLASH d). rewrite llen_cons.
    pose proof (llen_nonneg l). lia. }
  destruct (Z.leb_spec (llen (Split d SLASH)) 0); [lia|]. cbn [orb Z.ltb Z.compare].
  destruct (Z.eqb_spec (llen (Split d SLASH)) 1) as [H1 | H1].
  - apply Split_length in H1. now rewrite H1.
  - destruct (has_byte SLASH d) eqn:Hs.
    + unfold llen. rewrite Nat2Z.id, firstn_all, Join_Split. reflexivity.
    + apply Split_length in Hs. contradiction.
Qed.

Lemma X13_back_zero_witness :
  MarkCli.Back ["0"%string] (fresh None "/srv/www" "/root")
  = (Done tt,
     mkProc (disk None) (Some "/srv/www"%string) (Some "/root"%string)
       ("/srv/www" ++ nl)%string []).
Proof.
  exact (X13_back_zero (fresh None "/srv/www" "/root") "/srv/www" eq_refl).
Defined.

(** X14.  What [back] prints is the root or the beginning of the
    working directory.  With working directory [d] and an argument read
    as [index >= 0] that leaves more than one piece, [back] returns and
    prints a prefix of [d]. *)
Theorem X14_back_prints_prefix (p : Proc FS) (d a : string) (index : Z) :
  cwd p = Some d ->
  Atoi a = Some index ->
  0 <= index ->
  1 < llen (Split d SLASH) - index ->
  exists out : string,
    MarkCli.Back [a] p
    = (Done tt,
       mkProc (store p) (cwd p) (home p)
         (stdout p ++ (out ++ nl))%string (stderr p)) /\
    String.prefix out d = true.
Proof.
  intros Hd Ha H0 H1.
  exists (Join (firstn (Z.to_nat (llen (Split d SLASH) - index))
                 (Split d SLASH)) "/").
  split.
  - rewrite (Back_one_arg p d a index Hd Ha). cbv zeta.
    destruct (Z.ltb_spec index 0); [lia|].
    destruct (Z.leb_spec (llen (Split d SLASH) - index) 0); [lia|].
    destruct (Z.eqb_spec (llen (Split d SLASH) - index) 1); [lia|].
    reflexivity.
  - replace (Z.to_nat (llen (Split d SLASH) - index))
      with (Datatypes.S (Z.to_nat (llen (Split d SLASH) - index - 1))) by lia.
    apply Join_firstn_prefix.
Qed.

Lemma X14_back_prints_prefix_witness :
  exists out : string,
    MarkCli.Back ["2"%string] (fresh None "/srv/www/site" "/root")
    = (Done tt,
       mkProc (disk None) (Some "/srv/www/site"%string) (Some "/root"%string)
         (out ++ nl)%string []) /\
    String.prefix out "/srv/www/site" = true.
Proof.
  apply (X14_back_prints_prefix (fresh None "/srv/www/site" "/root")
           "/srv/www/site" "2" 2).
  - reflexivity.
  - reflexivity.
  - lia.
  - vm_compute. reflexivity.
Defined.

Section ReadOnly.

Lemma ro_ret {A} (a : A) : read_only (ret a).
Proof. intros p. reflexivity. Qed.

Lemma ro_bind {A B} (c : Cmd FS A) (k : A -> Cmd FS B) :
  read_only c -> (forall a, read_only (k a)) -> read_only (bind c k).
Proof.
  intros Hc Hk p. unfold bind. specialize (Hc p).
  destruct (c p) as [[a | code |] p1]; cbn [snd] in *; try assumption.
  now rewrite (Hk a p1).
Qed.

Lemma ro_db {A} (op : FS -> A * FS) :
  (forall s, content (snd (op s)) = content s) -> read_only (db op).
Proof.
  intros H p. unfold db. specialize (H (store p)).
  now destruct (op (store p)).
Qed.

Lemma ro_handleError (err : option error) : read_only (MarkCli.handleError err).
Proof. intros p. now destruct err. Qed.

Lemma ro_when (b : bool) (c : Cmd FS unit) : read_only c -> read_only (when b c).
Proof. intros H. destruct b; [assumption | apply ro_ret]. Qed.

Lemma ro_Print (s : string) : read_only (Print s).
Proof. intros p. reflexivity. Qed.

Lemma ro_Getwd : read_only Getwd.
Proof. intros p. unfold Getwd. now destruct (cwd p). Qed.

Lemma ro_Atoi_arg0 (args : list string) : read_only (MarkCli.Atoi_arg0 args).
Proof.
  intros p. unfold MarkCli.Atoi_arg0.
  destruct args as [|a r]; [reflexivity|]. now destruct (Atoi a).
Qed.

Ltac ro :=
  repeat first
    [ apply ro_ret | apply ro_handleError | apply ro_Print | apply ro_Getwd
    | apply ro_Atoi_arg0 | apply ro_when
    | apply ro_db; first [exact List_content | intros ?; apply Get_content]
    | apply ro_bind; [| intros ?]
    | match goal with
      | |- read_only (match ?x with _ => _ end) => destruct x
      end ].

Lemma ro_print_paths (paths : list string) :
  forall index : nat, read_only (MarkCli.print_paths index paths).
Proof.
  induction paths as [|q r IH]; intros index; cbn [MarkCli.print_paths].
  - apply ro_ret.
  - apply ro_bind; [apply ro_Print | intros _; apply IH].
Qed.

Lemma ro_Back (args : list string) : read_only (MarkCli.Back args).
Proof. unfold MarkCli.Back, Println. ro. Qed.

Lemma ro_List (args : list string) : read_only (MarkCli.List args).
Proof. unfold MarkCli.List. ro. apply ro_print_paths. Qed.

Lemma ro_Get (args : list string) : read_only (MarkCli.Get args).
Proof. unfold MarkCli.Get, Println. ro. Qed.

Lemma ro_DisplayHelp (args : list string) : read_only (MarkCli.DisplayHelp args).
Proof. apply ro_Print. Qed.

Lemma ro_Install (args : list string) : read_only (MarkCli.Install args).
Proof. apply ro_Print. Qed.

Lemma main_no_home (p : Proc FS) (argv : list string) :
  home p = None ->
  main argv p
  = (Panicked,
     mkProc (store p) (cwd p) (home p) (stdout p)
       (stderr p ++ [PanicReport (PanicError ErrHome)])).
Proof.
  intros Hh. destruct p as [s c h o e]. cbn [home] in Hh. subst h.
  reflexivity.
Qed.

Lemma main_no_args (p : Proc FS) (h : string) :
  home p = Some h ->
  main [] p
  = (Panicked,
     mkProc (store p) (cwd p) (home p) (stdout p)
       (stderr p ++ [PanicReport (IndexOutOfRange 1 0)])).
Proof.
  intros Hh. destruct p as [s c h0 o e]. cbn [home] in Hh. subst h0.
  reflexivity.
Qed.

End ReadOnly.

(** X15.  [mark] without a command is [mark add]: for every process
    the two runs end in the same way and in the same state. *)
Theorem X15_default_command (p : Proc FS) (prog : string) :
  main [prog] p = main [prog; "add"%string] p.
Proof.
  destruct (home p) as [h|] eqn:Hh.
  - now rewrite (main_default p prog h Hh), (main_add p prog h [] Hh).
  - now rewrite !main_no_home.
Qed.

(** X16.  [main] panics exactly when the home directory cannot be
    resolved or [os.Args] is empty; no command handler ever panics.
    When it panics it has neither touched the file nor written to
    standard output, and standard error has received the report of the
    runtime and nothing else: about the error of the home directory,
    or else about index 1 out of range of an empty slice. *)
Theorem X16_main_panics (p : Proc FS) (argv : list string) :
  (fst (main argv p) = Panicked <-> home p = None \/ argv = []) /\
  (home p = None ->
   main argv p
   = (Panicked,
      mkProc (store p) (cwd p) (home p) (stdout p)
        (stderr p ++ [PanicReport (PanicError ErrHome)]))) /\
  (home p <> None -> argv = [] ->
   main argv p
   = (Panicked,
      mkProc (store p) (cwd p) (home p) (stdout p)
        (stderr p ++ [PanicReport (IndexOutOfRange 1 0)]))).
Proof.
  split; [| split].
  - destruct (home p) as [h|] eqn:Hh.
    + destruct argv as [|prog rest].
      * rewrite (main_no_args p h Hh). split; auto.
      * assert (Hne : prog :: rest <> []) by discriminate.
        pose proof (main_reports p (prog :: rest) h Hh Hne) as H.
        cbv zeta in H.
        assert (Hnp : fst (main (prog :: rest) p) <> Panicked).
        { destruct H as [[H _] | [e [H _]]]; rewrite H; discriminate. }
        split; intros H'; [contradiction|].
        destruct H' as [H' | H']; discriminate.
    + rewrite (main_no_home p argv Hh). split; auto.
  - apply main_no_home.
  - intros Hh ->. destruct (home p) as [h|] eqn:Hh'; [| congruence].
    rewrite (main_no_args p h Hh'). now rewrite Hh'.
Qed.

Lemma X16_main_panics_witness :
  main ["mark"; "list"]%string
    (mkProc (disk (Some (serialize ["/a"]%string))) (Some "/"%string)
       None EmptyString [])
  = (Panicked,
     mkProc (disk (Some (serialize ["/a"]%string))) (Some "/"%string)
       None EmptyString [PanicReport (PanicError ErrHome)]).
Proof.
  apply (proj1 (proj2 (X16_main_panics
                  (mkProc (disk (Some (serialize ["/a"]%string)))
                     (Some "/"%string) None EmptyString [])
                  ["mark"; "list"]%string))).
  reflexivity.
Defined.

(** X17.  Only [add], [clear] and [delete] write.  A run of [main]
    whose command is any other word ([list], [get], [back], [help],
    [install] or an unknown one) leaves the bytes of the file as they
    were, whatever its arguments and whatever fails. *)
Theorem X17_other_commands_read_only (p : Proc FS) (argv : list string)
        (name : string) :
  nth_error argv 1 = Some name ->
  ~ In name ["add"; "clear"; "delete"]%string ->
  content (store (snd (main argv p))) = content (store p).
Proof.
  intros Hn Hname.
  destruct argv as [|prog [|name' rest]]; try discriminate.
  cbn in Hn. inversion Hn; subst name'. clear Hn.
  destruct (home p) as [h|] eqn:Hh; [| now rewrite main_no_home].
  rewrite (main_dispatch p prog name h rest Hh).
  destruct (lookup commands name) as [command|] eqn:Hl.
  - unfold commands in Hl. cbn [lookup] in Hl.
    repeat match type of Hl with
           | context [String.eqb ?k name] =>
               destruct (String.eqb_spec k name);
               [ inversion Hl; subst;
                 first [ apply ro_Back | apply ro_Get | apply ro_DisplayHelp
                       | apply ro_Install | apply ro_List
                       | exfalso; apply Hname; simpl; tauto ] |]
           end.
    discriminate.
  - reflexivity.
Qed.

Lemma X17_other_commands_read_only_witness :
  content (store (snd (main ["mark"; "get"; "5"]%string
                         (mkProc (mkFS (Some (serialize ["/a"]%string)) [true])
                            (Some "/"%string) (Some "/root"%string)
                            EmptyString []))))
  = serialize ["/a"]%string.
Proof.
  apply (X17_other_commands_read_only
           (mkProc (mkFS (Some (serialize ["/a"]%string)) [true])
              (Some "/"%string) (Some "/root"%string) EmptyString [])
           ["mark"; "get"; "5"]%string "get"%string).
  - reflexivity.
  - simpl. intuition discriminate.
Defined.

(** X18.  The command [clear] does not look at its arguments: with
    any arguments it does what it does with none, for every process.
    Without failures, on an existing file, it empties the file, prints
    nothing and returns. *)
Theorem X18_clear_command (prog : string) (args : list string) :
  (forall p : Proc FS,
     main (prog :: "clear"%string :: args) p = main [prog; "clear"%string] p) /\
  (forall (c h : string) (d : option string) (out : string) (err : list line),
     main (prog :: "clear"%string :: args)
       (mkProc (disk (Some c)) d (Some h) out err)
     = (Done tt, mkProc (disk (Some EmptyString)) d (Some h) out err)).
Proof.
  split.
  - intros p. destruct (home p) as [h|] eqn:Hh.
    + now rewrite (main_clear p prog h args Hh), (main_clear p prog h [] Hh).
    + now rewrite !main_no_home.
  - intros c h d out err.
    rewrite (main_clear _ prog h args) by reflexivity. reflexivity.
Qed.

(** X19.  Without failures, on a store of storable entries, the command
    [delete] with an argument read as a valid index [i] prints nothing,
    returns, and leaves the entries other than the one at position [i],
    in reverse order. *)
Theorem X19_delete_command (paths : list string) (prog a d h : string) (i : Z) :
  forallb storable paths = true ->
  Atoi a = Some i ->
  0 <= i < llen paths ->
  main [prog; "delete"; a]%string (fresh (Some (serialize paths)) d h)
  = (Done tt,
     mkProc (disk (Some (serialize (rev (without (Z.to_nat i) paths)))))
       (Some d) (Some h) EmptyString []).
Proof.
  intros HS Ha Hi.
  rewrite (main_delete _ prog h [a]) by reflexivity.
  unfold MarkCli.Delete, fresh. change (llen [a] =? 1) with true.
  run. rewrite Ha. cbv beta iota.
  now rewrite (Delete_disk i paths HS Hi).
Qed.

Lemma X19_delete_command_witness :
  main ["mark"; "delete"; "0"]%string
    (fresh (Some (serialize ["/a"; "/b"; "/c"]%string)) "/" "/root")
  = (Done tt,
     mkProc (disk (Some (serialize ["/c"; "/b"]%string)))
       (Some "/"%string) (Some "/root"%string) EmptyString []).
Proof.
  apply (X19_delete_command ["/a"; "/b"; "/c"]%string "mark" "0" "/" "/root" 0).
  - reflexivity.
  - reflexivity.
  - unfold llen. simpl. lia.
Defined.
